(** * ThalaNet backend: donor matching and emergency alerts

    A shallow embedding of
      - [src/backend/src/ml/patientDonorMatching.py]
        (class [PatientDonorMatching]), and
      - [src/backend/src/services/emergencyNotificationService.py]
        (class [EmergencyNotificationService]),
    followed by the properties the specification states about them.

    Conventions of the embedding.
      - Python [float] values are exact rationals ([Q]): the arithmetic of
        the scoring code is modelled without binary64 rounding error.
        [round(x, 2)] is round-half-to-even on the exact value.
      - A [dict] or DataFrame row is a record.  A key the code reads with
        [.get(k, default)] is an [option] field ([None]: key absent); a key
        it reads with a subscript is a plain field, except [age], read both
        ways, whose subscript read raises [KeyError] when absent.
      - A DataFrame is the list of its rows.  The rows of a frame share its
        columns, so a key is absent from a row when the frame has no such
        column: the list stands for a frame when such a field is [Some] in
        every row or [None] in every row ([whole_column]).  A missing cell
        of a column that exists (NaN) is not a rational and is not
        modelled; the properties about a raised [KeyError] are stated for
        whole columns.
      - Exceptions are values of [result].  [datetime.now()] is an explicit
        argument [now]; instants are integers counting nanoseconds.  One
        call of [find_matches] scores every donor at the same reading of
        the clock: the pass is taken to be instantaneous.
      - [geopy]'s geodesic distance and the square root of the planar
        fallback are outside the repository: they are Section variables. *)

From Stdlib Require Import ZArith QArith Qabs Qround Lqa Lia.
From stdpp Require Import gmap strings list sorting.

Local Open Scope Q_scope.

(** ** Python primitives *)

Inductive exn : Set :=
  | ImportError | ValueError | KeyError | ZeroDivisionError | TypeError.

Inductive result (A : Type) : Type :=
  | Ok (a : A)
  | Raise (e : exn).
Arguments Ok {A} a.
Arguments Raise {A} e.

#[global] Instance result_ret : MRet result := @Ok.
#[global] Instance result_bind : MBind result := fun A B f r =>
  match r with
  | Ok a => f a
  | Raise e => Raise e
  end.

(** [d.get(k, default)] on an optional field. *)
Definition get {A : Type} (field : option A) (dflt : A) : A :=
  match field with
  | Some v => v
  | None => dflt
  end.

Definition Qltb (x y : Q) : bool := negb (Qle_bool y x).

(** Python's [max(a, b)]: [b] when [b > a], otherwise [a]. *)
Definition py_max (a b : Q) : Q := if Qltb a b then b else a.

(** [round(x)] to an integer, ties to the even neighbour. *)
Definition round_half_even (q : Q) : Z :=
  let f := Qfloor q in
  match Qcompare (q - inject_Z f) (1 # 2) with
  | Lt => f
  | Gt => (f + 1)%Z
  | Eq => if Z.even f then f else (f + 1)%Z
  end.

(** [round(x, 2)]. *)
Definition round2 (q : Q) : Q := inject_Z (round_half_even (q * 100)) / 100.

(** [l[:n]]: a negative [n] counts from the end of the list. *)
Definition slice_to {A : Type} (l : list A) (n : Z) : list A :=
  if (0 <=? n)%Z then take (Z.to_nat n) l
  else take (Z.to_nat (Z.of_nat (length l) + n)) l.

(** [l.sort(key=key, reverse=True)].  Python's sort is stable, also with
    [reverse=True]; the stable result is unique, so it is given here by a
    stable insertion sort: an element goes in front of the first element
    whose key is not greater than its own. *)
Section Sort.
Context {A : Type} (key : A → Q).

Fixpoint insert_desc (x : A) (l : list A) : list A :=
  match l with
  | [] => [x]
  | y :: l' => if Qltb (key x) (key y) then y :: insert_desc x l' else x :: l
  end.

Definition sort_desc (l : list A) : list A := foldr insert_desc [] l.

(** Descending order of the keys. *)
Definition desc (x y : A) : Prop := key y <= key x.

(** The entries whose key equals [k], in the order of the list. *)
Definition with_key (k : Q) (l : list A) : list A :=
  filter (λ x, Qeq_bool (key x) k = true) l.
End Sort.

(** Instants and durations, in nanoseconds. *)
Definition ns_per_second : Z := 1000000000.
Definition ns_per_day : Z := 86400 * ns_per_second.

(** [(now - t).days]: whole days, rounded towards minus infinity. *)
Definition timedelta_days (now t : Z) : Z := ((now - t) / ns_per_day)%Z.

(** [(now - t).total_seconds()]. *)
Definition total_seconds (now t : Z) : Q := (now - t)%Z # 1000000000.

(** The two numeric routines the code takes from outside the repository:
    [geodesic((lat1, lon1), (lat2, lon2)).kilometers] of [geopy], which
    raises on coordinates it rejects (or [ImportError] when the package is
    missing), and the planar fallback
    [np.sqrt((lat1 - lat2)**2 + (lon1 - lon2)**2) * 111]. *)
Class Geo : Type := {
  geodesic : Q → Q → Q → Q → result Q;
  planar : Q → Q → Q → Q → Q }.

(** ** patientDonorMatching.py *)

(** The value of [donor.get('last_donation_date')] as the scoring code sees
    it: falsy ([None], empty string, key absent), truthy but rejected by
    [pd.to_datetime] (the exception is swallowed), or an instant. *)
Inductive donation_date : Set :=
  | NoDate
  | BadDate
  | DateAt (t : Z).

Record Patient : Set := {
  blood_type_required : string;
  p_urgency_level : option string;
  p_latitude : option Q;
  p_longitude : option Q;
  p_location : option string }.

Record Donor : Set := {
  donor_id : string;
  name : string;
  blood_type : string;
  age : option Z;
  gender : string;
  location : string;
  latitude : option Q;
  longitude : option Q;
  availability_status : string;
  health_conditions : option string;
  last_donation_date : donation_date;
  responsiveness_score : option Q;
  predicted_availability_score : option Q;
  contact_number : option string }.

Definition blood_compatibility : gmap string (list string) :=
  list_to_map
    [ ("O-",  ["O-"]);
      ("O+",  ["O+"; "O-"]);
      ("A-",  ["A-"; "O-"]);
      ("A+",  ["A+"; "A-"; "O+"; "O-"]);
      ("B-",  ["B-"; "O-"]);
      ("B+",  ["B+"; "B-"; "O+"; "O-"]);
      ("AB-", ["AB-"; "A-"; "B-"; "O-"]);
      ("AB+", ["AB+"; "AB-"; "A+"; "A-"; "B+"; "B-"; "O+"; "O-"]) ]%string.

Definition urgency_weights : gmap string Q :=
  list_to_map
    [ ("LOW", 1.0); ("MEDIUM", 1.5); ("HIGH", 2.0); ("CRITICAL", 3.0) ]%string.

Definition distance_weights : gmap string Q :=
  list_to_map
    [ ("same_city", 1.0); ("nearby_city", 0.8); ("far_city", 0.6) ]%string.

Definition max_distance : Q := 100.

Definition get_location_proximity (distance : Q) : string :=
  if Qle_bool distance 10 then "same_city"
  else if Qle_bool distance 50 then "nearby_city"
  else "far_city".

Definition check_blood_compatibility
    (patient_blood_type donor_blood_type : string) : bool :=
  bool_decide
    (donor_blood_type ∈ default [] (blood_compatibility !! patient_blood_type)).

(** The recency step of the score: the body of [if last_donation:]. *)
Definition recency_factor (now : Z) (last_donation : donation_date) (score : Q) : Q :=
  match last_donation with
  | NoDate => score
  | BadDate => score
  | DateAt t =>
      let days_since := timedelta_days now t in
      if (56 <=? days_since)%Z then score * 1.2
      else if (days_since <? 30)%Z then score * 0.3
      else score
  end.

Definition calculate_matching_score (now : Z)
    (patient : Patient) (donor : Donor)
    (distance : Q) (predicted_availability : Q) : Q :=
  let score := 0.0 in
  if negb (check_blood_compatibility (blood_type_required patient) (blood_type donor))
  then 0.0
  else
    let score := score + 100 in
    let urgency := get (p_urgency_level patient) "MEDIUM"%string in
    let urgency_multiplier := default 1.0 (urgency_weights !! urgency) in
    let score := score * urgency_multiplier in
    let proximity := get_location_proximity distance in
    let distance_weight := default 0.5 (distance_weights !! proximity) in
    let score := score * distance_weight in
    let availability_score :=
      get (predicted_availability_score donor) predicted_availability in
    let score := score * (0.5 + 0.5 * availability_score) in
    let score :=
      if bool_decide (health_conditions donor = Some "None"%string)
      then score * 1.2 else score * 0.8 in
    let responsiveness := get (responsiveness_score donor) 0.5 in
    let score := score * (0.8 + 0.4 * responsiveness) in
    let donor_age := get (age donor) 35%Z in
    let score :=
      if ((18 <=? donor_age) && (donor_age <=? 45))%Z then score * 1.1
      else if (65 <? donor_age)%Z then score * 0.9
      else score in
    let score := recency_factor now (last_donation_date donor) score in
    py_max 0.0 score.

(** One entry of the list [find_matches] returns. *)
Record Match : Set := {
  m_donor_id : string;
  m_donor_name : string;
  m_blood_type : string;
  m_age : Z;
  m_gender : string;
  m_location : string;
  m_distance_km : Q;
  m_matching_score : Q;
  m_predicted_availability : Q;
  m_responsiveness_score : Q;
  m_last_donation_date : donation_date;
  m_health_conditions : option string;
  m_contact_number : option string;
  m_urgency_level : string }.

(** [try: geodesic(...) except: planar fallback] (a bare [except]). *)
Definition calculate_distance `{Geo} (lat1 lon1 lat2 lon2 : Q) : Q :=
  match geodesic lat1 lon1 lat2 lon2 with
  | Ok km => km
  | Raise _ => planar lat1 lon1 lat2 lon2
  end.

(** [d[k]] on a key that may be absent: for a row of a DataFrame, on a
    column the frame may not have. *)
Definition subscript {A : Type} (field : option A) : result A :=
  match field with
  | Some v => Ok v
  | None => Raise KeyError
  end.

(** The rows kept by the boolean mask of [find_matches]. *)
Definition is_available (donor : Donor) : bool :=
  bool_decide (availability_status donor = "Available"%string)
  && negb (bool_decide (health_conditions donor = Some "HIV/AIDS"%string))
  && negb (bool_decide (health_conditions donor = Some "Hepatitis"%string)).

(** The body of the [for] loop of [find_matches]: [None] when the donor is
    skipped, the entry to append otherwise. *)
Definition find_matches_body `{Geo} (now : Z) (patient : Patient)
    (min_score : Q) (donor : Donor) : result (option Match) :=
  let distance :=
    calculate_distance (get (p_latitude patient) 0) (get (p_longitude patient) 0)
                       (get (latitude donor) 0) (get (longitude donor) 0) in
  if Qltb max_distance distance then Ok None
  else
    let score :=
      calculate_matching_score now patient donor distance
        (get (predicted_availability_score donor) 0.5) in
    if Qle_bool min_score score then
      donor_age ← subscript (age donor);
      Ok (Some {|
        m_donor_id := donor_id donor;
        m_donor_name := name donor;
        m_blood_type := blood_type donor;
        m_age := donor_age;
        m_gender := gender donor;
        m_location := location donor;
        m_distance_km := round2 distance;
        m_matching_score := round2 score;
        m_predicted_availability := get (predicted_availability_score donor) 0.5;
        m_responsiveness_score := get (responsiveness_score donor) 0.5;
        m_last_donation_date := last_donation_date donor;
        m_health_conditions := health_conditions donor;
        m_contact_number := contact_number donor;
        m_urgency_level := get (p_urgency_level patient) "MEDIUM"%string |})
    else Ok None.

(** The [for] loop: [matches] is the list built so far. *)
Fixpoint find_matches_loop `{Geo} (now : Z) (patient : Patient) (min_score : Q)
    (donors : list Donor) (matches : list Match) : result (list Match) :=
  match donors with
  | [] => Ok matches
  | donor :: rest =>
      entry ← find_matches_body now patient min_score donor;
      find_matches_loop now patient min_score rest
        (match entry with
         | Some m => matches ++ [m]
         | None => matches
         end)
  end.

Definition find_matches `{Geo} (now : Z) (patient : Patient)
    (donors_df : list Donor) (max_matches : Z) (min_score : Q)
    : result (list Match) :=
  let available_donors := filter (λ d, is_available d = true) donors_df in
  if bool_decide (length available_donors = 0%nat) then Ok []
  else
    matches ← find_matches_loop now patient min_score available_donors [];
    Ok (slice_to (sort_desc m_matching_score matches) max_matches).

(** The [emergency_request] dictionary of [find_emergency_matches]. *)
Record EmergencyRequest : Set := {
  blood_type_needed : string;
  urgency_level : string;
  e_latitude : option Q;
  e_longitude : option Q;
  e_location : string }.

Record Recommendations : Set := {
  immediate_contact : list Match;
  high_priority : list Match;
  backup_options : list Match;
  total_matches : nat;
  rec_blood_type_needed : string;
  rec_urgency_level : string;
  rec_location : string;
  rec_timestamp : Z }.

Definition is_critical_match (m : Match) : bool :=
  bool_decide (m_urgency_level m = "CRITICAL"%string) && Qle_bool (m_distance_km m) 25.

Definition is_high_priority_match (m : Match) : bool :=
  Qle_bool 150 (m_matching_score m) && Qle_bool (m_distance_km m) 50.

Definition is_standard_match (m : Match) : bool :=
  Qle_bool 100 (m_matching_score m).

(** The patient object [find_emergency_matches] creates from the request. *)
Definition emergency_patient (emergency_request : EmergencyRequest) : Patient := {|
  blood_type_required := blood_type_needed emergency_request;
  p_urgency_level := Some (urgency_level emergency_request);
  p_latitude := Some (get (e_latitude emergency_request) 0);
  p_longitude := Some (get (e_longitude emergency_request) 0);
  p_location := Some (e_location emergency_request) |}.

Definition find_emergency_matches `{Geo} (now : Z)
    (emergency_request : EmergencyRequest) (donors_df : list Donor)
    (max_matches : Z) : result Recommendations :=
  let patient := emergency_patient emergency_request in
  matches ← find_matches now patient donors_df max_matches 30.0;
  let critical_matches := filter (λ m, is_critical_match m = true) matches in
  let high_priority_matches := filter (λ m, is_high_priority_match m = true) matches in
  let standard_matches := filter (λ m, is_standard_match m = true) matches in
  Ok {|
    immediate_contact := slice_to critical_matches 3;
    high_priority := slice_to high_priority_matches 5;
    backup_options := slice_to standard_matches 10;
    total_matches := length matches;
    rec_blood_type_needed := blood_type_needed emergency_request;
    rec_urgency_level := urgency_level emergency_request;
    rec_location := e_location emergency_request;
    rec_timestamp := now |}.

(** The default of the [max_matches] argument of [find_emergency_matches]. *)
Definition default_emergency_max_matches : Z := 20.

(** ** emergencyNotificationService.py *)

(** One entry of the list [_simple_donor_matching] returns. *)
Record SimpleMatch : Set := {
  s_donor_id : string;
  s_donor_name : string;
  s_blood_type : string;
  s_location : string;
  s_distance_km : Q;
  s_matching_score : Q;
  s_contact_number : string;
  s_responsiveness_score : Q }.

(** A matched donor is a dictionary of one of the two shapes. *)
Inductive MatchedDonor : Set :=
  | FromMatching (m : Match)
  | FromSimple (m : SimpleMatch).

(** The dataclass [EmergencyAlert].  [alert_id] is the number [n] of the
    identifier [f"ALERT_{n:06d}"]; [matched_donors = None] is the dataclass
    default. *)
Record EmergencyAlert : Set := {
  alert_id : nat;
  request_id : string;
  a_blood_type_needed : string;
  a_urgency_level : string;
  a_location : string;
  a_latitude : Q;
  a_longitude : Q;
  units_required : Z;
  hospital_name : string;
  contact_person : string;
  a_contact_number : string;
  timestamp : Z;
  status : string;
  matched_donors : option (list MatchedDonor);
  notification_sent : bool }.

(** A row of [emergency_requests_df]; [r_timestamp] is the instant
    [pd.to_datetime(request['timestamp'])]. *)
Record RequestRow : Set := {
  r_request_id : string;
  r_timestamp : Z;
  r_urgency_level : option string;
  r_blood_type_needed : string;
  r_location : string;
  r_latitude : option Q;
  r_longitude : option Q;
  r_units_required : option Z;
  r_hospital_name : option string;
  r_contact_person : option string;
  r_contact_number : option string }.

Record Config : Set := {
  check_interval_seconds : Z;
  max_alerts_per_hour : Z;
  cfg_notification_channels : list string;
  max_distance_km : Q;
  min_matching_score : Q;
  alert_expiry_hours : Q;
  batch_notification_size : Z }.

Definition _get_default_config : Config := {|
  check_interval_seconds := 30;
  max_alerts_per_hour := 50;
  cfg_notification_channels := ["email"; "sms"]%string;
  max_distance_km := 100;
  min_matching_score := 50;
  alert_expiry_hours := 24;
  batch_notification_size := 10 |}.

(** An entry of [alert_history]. *)
Record HistoryEntry : Set := {
  h_alert_id : nat;
  h_timestamp : Z;
  h_status : string;
  h_matched_donors_count : nat }.

(** The structured content of the text built by [generate_alert_message]:
    the alert, the number of matched donors and the five donors listed. *)
Record AlertMessage : Set := {
  msg_alert : EmergencyAlert;
  msg_donor_count : nat;
  msg_top_matches : list MatchedDonor }.

(** A notification channel, as [_send_notification_async] uses it: the
    outcome of [await self.notification_channels[channel](message, alert,
    matched_donors)]. *)
Definition Sink : Type :=
  AlertMessage → EmergencyAlert → list MatchedDonor → result bool.

(** The attached matching system: its method [find_emergency_matches],
    called with the default [max_matches]. *)
Definition MatchingSystem : Type :=
  EmergencyRequest → list Donor → result Recommendations.

(** The state of an [EmergencyNotificationService].  [active_alerts] maps a
    request id to the alert object; the list [new_alerts] of one processing
    pass refers to the same objects, so an alert is mutated in this map. *)
Record Service : Type := {
  config : Config;
  active_alerts : gmap string EmergencyAlert;
  alert_history : list HistoryEntry;
  matching_system : option MatchingSystem;
  notification_channels : gmap string Sink }.

Definition set_active_alerts (s : Service) (m : gmap string EmergencyAlert) : Service :=
  {| config := config s; active_alerts := m; alert_history := alert_history s;
     matching_system := matching_system s;
     notification_channels := notification_channels s |}.

Definition set_alert_history (s : Service) (h : list HistoryEntry) : Service :=
  {| config := config s; active_alerts := active_alerts s; alert_history := h;
     matching_system := matching_system s;
     notification_channels := notification_channels s |}.

(** The four built-in channels log the message and return [True], a value
    that cannot be awaited: the [await] raises [TypeError]. *)
Definition _send_email_notification : Sink := λ _ _ _, Raise TypeError.
Definition _send_sms_notification : Sink := λ _ _ _, Raise TypeError.
Definition _send_whatsapp_notification : Sink := λ _ _ _, Raise TypeError.
Definition _send_push_notification : Sink := λ _ _ _, Raise TypeError.

(** [EmergencyNotificationService(config)]; [None] selects the defaults. *)
Definition new_service (cfg : option Config) : Service := {|
  config := default _get_default_config cfg;
  active_alerts := ∅;
  alert_history := [];
  matching_system := None;
  notification_channels :=
    list_to_map
      [ ("email", _send_email_notification);
        ("sms", _send_sms_notification);
        ("whatsapp", _send_whatsapp_notification);
        ("push", _send_push_notification) ]%string |}.

(** The body of the [for] loop of [detect_emergency_requests]; the pair is
    [(new_alerts, self.active_alerts)]. *)
Definition detect_step (current_time : Z)
    (st : list EmergencyAlert * gmap string EmergencyAlert) (request : RequestRow)
    : list EmergencyAlert * gmap string EmergencyAlert :=
  let '(new_alerts, active) := st in
  let request_id := r_request_id request in
  if bool_decide (is_Some (active !! request_id)) then st
  else
    let request_time := r_timestamp request in
    if Qltb 3600 (total_seconds current_time request_time) then st
    else
      let urgency := get (r_urgency_level request) "MEDIUM"%string in
      if bool_decide (urgency ∈ ["HIGH"; "CRITICAL"]%string) then
        let alert := {|
          alert_id := size active + 1;
          request_id := request_id;
          a_blood_type_needed := r_blood_type_needed request;
          a_urgency_level := urgency;
          a_location := r_location request;
          a_latitude := get (r_latitude request) 0;
          a_longitude := get (r_longitude request) 0;
          units_required := get (r_units_required request) 1%Z;
          hospital_name := get (r_hospital_name request) "Unknown"%string;
          contact_person := get (r_contact_person request) "Unknown"%string;
          a_contact_number := get (r_contact_number request) "Unknown"%string;
          timestamp := request_time;
          status := "active";
          matched_donors := None;
          notification_sent := false |} in
        (new_alerts ++ [alert], <[request_id := alert]> active)
      else st.

Definition detect_emergency_requests (current_time : Z) (s : Service)
    (emergency_requests_df : list RequestRow) : list EmergencyAlert * Service :=
  let '(new_alerts, active) :=
    foldl (detect_step current_time) ([], active_alerts s) emergency_requests_df in
  (new_alerts, set_active_alerts s active).

(** [try: geodesic(...) except ImportError: planar fallback]: any other
    exception of [geodesic] propagates. *)
Definition _calculate_distance `{Geo} (lat1 lon1 lat2 lon2 : Q) : result Q :=
  match geodesic lat1 lon1 lat2 lon2 with
  | Ok km => Ok km
  | Raise ImportError => Ok (planar lat1 lon1 lat2 lon2)
  | Raise e => Raise e
  end.

(** The rows kept by the boolean mask of [_simple_donor_matching]. *)
Definition is_simple_compatible (alert : EmergencyAlert) (donor : Donor) : bool :=
  bool_decide (blood_type donor = a_blood_type_needed alert)
  && bool_decide (availability_status donor = "Available"%string)
  && bool_decide (health_conditions donor = Some "None"%string).

(** [a / b] on Python floats, as the distance [geodesic] returns is.  (The
    distance of the planar fallback is a [numpy.float64], for which a zero
    divisor gives [nan] or [inf] and a warning instead of an exception; the
    rationals have no such values, and what is stated about a zero
    [max_distance_km] is stated for the distances [geodesic] returns.) *)
Definition py_div (a b : Q) : result Q :=
  if Qeq_bool b 0 then Raise ZeroDivisionError else Ok (a / b).

(** The body of the [for] loop of [_simple_donor_matching]. *)
Definition simple_matching_body `{Geo} (cfg : Config) (alert : EmergencyAlert)
    (donor : Donor) : result (option SimpleMatch) :=
  distance ← _calculate_distance (a_latitude alert) (a_longitude alert)
                (get (latitude donor) 0) (get (longitude donor) 0);
  if Qle_bool distance (max_distance_km cfg) then
    ratio ← py_div distance (max_distance_km cfg);
    let score := 100 - ratio * 50 in
    Ok (Some {|
      s_donor_id := donor_id donor;
      s_donor_name := name donor;
      s_blood_type := blood_type donor;
      s_location := location donor;
      s_distance_km := round2 distance;
      s_matching_score := round2 score;
      s_contact_number := get (contact_number donor) "Unknown"%string;
      s_responsiveness_score := get (responsiveness_score donor) 0.5 |})
  else Ok None.

Fixpoint simple_matching_loop `{Geo} (cfg : Config) (alert : EmergencyAlert)
    (donors : list Donor) (matches : list SimpleMatch) : result (list SimpleMatch) :=
  match donors with
  | [] => Ok matches
  | donor :: rest =>
      entry ← simple_matching_body cfg alert donor;
      simple_matching_loop cfg alert rest
        (match entry with
         | Some m => matches ++ [m]
         | None => matches
         end)
  end.

Definition _simple_donor_matching `{Geo} (cfg : Config) (alert : EmergencyAlert)
    (donors_df : list Donor) : result (list SimpleMatch) :=
  let compatible_donors := filter (λ d, is_simple_compatible alert d = true) donors_df in
  if bool_decide (length compatible_donors = 0%nat) then Ok []
  else
    matches ← simple_matching_loop cfg alert compatible_donors [];
    Ok (slice_to (sort_desc s_matching_score matches) 10).

Definition find_matching_donors_for_alert `{Geo} (s : Service)
    (alert : EmergencyAlert) (donors_df : list Donor) : result (list MatchedDonor) :=
  let simple : result (list MatchedDonor) :=
    matches ← _simple_donor_matching (config s) alert donors_df;
    Ok (FromSimple <$> (matches : list SimpleMatch)) in
  match matching_system s with
  | None => simple
  | Some system =>
      match system {| blood_type_needed := a_blood_type_needed alert;
                      urgency_level := a_urgency_level alert;
                      e_latitude := Some (a_latitude alert);
                      e_longitude := Some (a_longitude alert);
                      e_location := a_location alert |} donors_df with
      | Ok matches =>
          Ok (FromMatching <$> (immediate_contact matches ++ high_priority matches))
      | Raise _ => simple
      end
  end.

Definition generate_alert_message (alert : EmergencyAlert)
    (matched : list MatchedDonor) : AlertMessage :=
  {| msg_alert := alert;
     msg_donor_count := length matched;
     msg_top_matches := slice_to matched 5 |}.

(** What [_send_notification_async] writes to the log. *)
Inductive DispatchLog : Set :=
  | NotificationSent (channel : string) (outcome : bool)
  | NotificationError (channel : string) (e : exn).

Definition _send_notification_async (s : Service) (channel : string)
    (message : AlertMessage) (alert : EmergencyAlert)
    (matched : list MatchedDonor) : DispatchLog :=
  match subscript (notification_channels s !! channel)
        ≫= (λ sink, sink message alert matched) with
  | Ok outcome => NotificationSent channel outcome
  | Raise e => NotificationError channel e
  end.

Definition mark_notified (alert : EmergencyAlert) (matched : list MatchedDonor)
    : EmergencyAlert :=
  {| alert_id := alert_id alert; request_id := request_id alert;
     a_blood_type_needed := a_blood_type_needed alert;
     a_urgency_level := a_urgency_level alert; a_location := a_location alert;
     a_latitude := a_latitude alert; a_longitude := a_longitude alert;
     units_required := units_required alert; hospital_name := hospital_name alert;
     contact_person := contact_person alert;
     a_contact_number := a_contact_number alert; timestamp := timestamp alert;
     status := status alert;
     matched_donors := Some matched;
     notification_sent := true |}.

Definition set_status (alert : EmergencyAlert) (st : string) : EmergencyAlert :=
  {| alert_id := alert_id alert; request_id := request_id alert;
     a_blood_type_needed := a_blood_type_needed alert;
     a_urgency_level := a_urgency_level alert; a_location := a_location alert;
     a_latitude := a_latitude alert; a_longitude := a_longitude alert;
     units_required := units_required alert; hospital_name := hospital_name alert;
     contact_person := contact_person alert;
     a_contact_number := a_contact_number alert; timestamp := timestamp alert;
     status := st;
     matched_donors := matched_donors alert;
     notification_sent := notification_sent alert |}.

(** [send_emergency_notifications]: the alert after the call and the log of
    the channel tasks.  The tasks are independent coroutines that touch
    neither the alert nor the service; [asyncio.gather] waits for all of
    them, so they are run here one after the other, in creation order. *)
Definition send_emergency_notifications (s : Service) (alert : EmergencyAlert)
    (matched : list MatchedDonor) : EmergencyAlert * list DispatchLog :=
  match matched with
  | [] => (alert, [])
  | _ :: _ =>
      let message := generate_alert_message alert matched in
      let notification_tasks :=
        filter (λ channel, is_Some (notification_channels s !! channel))
               (cfg_notification_channels (config s)) in
      let log :=
        (λ channel, _send_notification_async s channel message alert matched)
          <$> notification_tasks in
      (mark_notified alert matched, log)
  end.

(** The dictionary [process_emergency_requests] appends to the history. *)
Definition history_entry (alert : EmergencyAlert) (matched : list MatchedDonor)
    : HistoryEntry :=
  {| h_alert_id := alert_id alert;
     h_timestamp := timestamp alert;
     h_status := "processed";
     h_matched_donors_count := length matched |}.

(** The body of the loop of [process_emergency_requests].  The alert object
    is the one stored under its request id. *)
Definition process_alert `{Geo} (donors_df : list Donor) (s : Service)
    (alert : EmergencyAlert) : Service :=
  match find_matching_donors_for_alert s alert donors_df with
  | Ok matched =>
      let s1 :=
        match matched with
        | [] => s
        | _ :: _ =>
            set_active_alerts s
              (alter (λ a, fst (send_emergency_notifications s a matched))
                     (request_id alert) (active_alerts s))
        end in
      set_alert_history s1 (alert_history s1 ++ [history_entry alert matched])
  | Raise _ =>
      set_active_alerts s
        (alter (λ a, set_status a "error") (request_id alert) (active_alerts s))
  end.

Definition is_expired (cfg : Config) (current_time : Z) (alert : EmergencyAlert) : bool :=
  Qltb (alert_expiry_hours cfg * 3600) (total_seconds current_time (timestamp alert)).

Definition _cleanup_expired_alerts (current_time : Z) (s : Service) : Service :=
  let expired_alerts :=
    fst <$> filter (λ kv, is_expired (config s) current_time (snd kv) = true)
                   (map_to_list (active_alerts s)) in
  set_active_alerts s
    (foldl (λ active request_id, delete request_id active)
           (active_alerts s) expired_alerts).

(** [process_emergency_requests]; [detect_time] and [cleanup_time] are the
    two readings of the clock, in [detect_emergency_requests] and in
    [_cleanup_expired_alerts]. *)
Definition process_emergency_requests `{Geo} (detect_time cleanup_time : Z)
    (s : Service) (emergency_requests_df : list RequestRow)
    (donors_df : list Donor) : Service :=
  let '(new_alerts, s) := detect_emergency_requests detect_time s emergency_requests_df in
  match new_alerts with
  | [] => s
  | _ :: _ =>
      _cleanup_expired_alerts cleanup_time
        (foldl (process_alert donors_df) s new_alerts)
  end.

(** ** Further functions of the two modules *)

(** A row of [patients_df] in [batch_match_patients]: the patient
    dictionary [patient.to_dict()] and the two columns only the batch
    reads. *)
Record PatientRow : Set := {
  patient_id : string;
  patient_name : string;
  patient_dict : Patient }.

Record PatientInfo : Set := {
  info_name : string;
  info_blood_type_required : string;
  info_urgency_level : string;
  info_location : string }.

(** The value stored under a patient id by [batch_match_patients]. *)
Record PatientMatches : Set := {
  patient_info : PatientInfo;
  matches : list Match;
  match_count : nat }.

(** The body of the loop of [batch_match_patients]. *)
Definition batch_match_body `{Geo} (now : Z) (donors_df : list Donor)
    (max_matches_per_patient : Z) (all_matches : gmap string PatientMatches)
    (patient : PatientRow) : result (gmap string PatientMatches) :=
  found ← find_matches now (patient_dict patient) donors_df
             max_matches_per_patient 40.0;
  urgency ← subscript (p_urgency_level (patient_dict patient));
  place ← subscript (p_location (patient_dict patient));
  Ok (<[patient_id patient :=
         {| patient_info :=
              {| info_name := patient_name patient;
                 info_blood_type_required :=
                   blood_type_required (patient_dict patient);
                 info_urgency_level := urgency;
                 info_location := place |};
            matches := found;
            match_count := length (found : list Match) |}]> all_matches).

Fixpoint batch_match_loop `{Geo} (now : Z) (donors_df : list Donor)
    (max_matches_per_patient : Z) (patients : list PatientRow)
    (all_matches : gmap string PatientMatches)
    : result (gmap string PatientMatches) :=
  match patients with
  | [] => Ok all_matches
  | patient :: rest =>
      all_matches' ← batch_match_body now donors_df max_matches_per_patient
                       all_matches patient;
      batch_match_loop now donors_df max_matches_per_patient rest all_matches'
  end.

(** [batch_match_patients]; the two progress lines it prints are left out. *)
Definition batch_match_patients `{Geo} (now : Z) (patients_df : list PatientRow)
    (donors_df : list Donor) (max_matches_per_patient : Z)
    : result (gmap string PatientMatches) :=
  batch_match_loop now donors_df max_matches_per_patient patients_df ∅.

(** The default of [max_matches_per_patient]. *)
Definition default_max_matches_per_patient : Z := 5.

(** A [PatientDonorMatching] object attached to the service as its
    [matching_system]: the service calls [find_emergency_matches] with the
    default [max_matches]; [now] is the clock this call reads. *)
Definition patient_donor_matching `{Geo} (now : Z) : MatchingSystem :=
  λ emergency_request donors_df,
    find_emergency_matches now emergency_request donors_df
      default_emergency_max_matches.

Definition set_matching_system (s : Service) (system : option MatchingSystem)
    : Service :=
  {| config := config s; active_alerts := active_alerts s;
     alert_history := alert_history s;
     matching_system := system;
     notification_channels := notification_channels s |}.

(** The dictionary [get_alert_statistics] returns. *)
Record AlertStatistics : Set := {
  active_alerts_count : nat;
  urgency_distribution : gmap string nat;
  recent_alerts_count : nat;
  total_alerts_processed : nat;
  last_processed : option Z }.

(** [urgency_counts[urgency] = urgency_counts.get(urgency, 0) + 1]. *)
Definition count_urgency (alert : EmergencyAlert) (urgency_counts : gmap string nat)
    : gmap string nat :=
  <[a_urgency_level alert :=
      (default 0 (urgency_counts !! a_urgency_level alert) + 1)%nat]> urgency_counts.

Definition is_recent_entry (current_time : Z) (entry : HistoryEntry) : bool :=
  Qle_bool (total_seconds current_time (h_timestamp entry)) 86400.

Definition get_alert_statistics (current_time : Z) (s : Service) : AlertStatistics :=
  let urgency_counts :=
    map_fold (λ _ alert counts, count_urgency alert counts) ∅ (active_alerts s) in
  let recent_alerts :=
    filter (λ entry, is_recent_entry current_time entry = true) (alert_history s) in
  {| active_alerts_count := size (active_alerts s);
     urgency_distribution := urgency_counts;
     recent_alerts_count := length recent_alerts;
     total_alerts_processed := length (alert_history s);
     last_processed := h_timestamp <$> last (alert_history s) |}.

(** ** Auxiliary definitions of the statements *)

(** The score after the age step and before the recency step. *)
Definition pre_recency_score (patient : Patient) (donor : Donor)
    (distance : Q) (predicted_availability : Q) : Q :=
  let score := (0.0 + 100)
    * default 1.0 (urgency_weights !! get (p_urgency_level patient) "MEDIUM"%string)
    * default 0.5 (distance_weights !! get_location_proximity distance)
    * (0.5 + 0.5 * get (predicted_availability_score donor) predicted_availability) in
  let score :=
    if bool_decide (health_conditions donor = Some "None"%string)
    then score * 1.2 else score * 0.8 in
  let score := score * (0.8 + 0.4 * get (responsiveness_score donor) 0.5) in
  let donor_age := get (age donor) 35%Z in
  if ((18 <=? donor_age) && (donor_age <=? 45))%Z then score * 1.1
  else if (65 <? donor_age)%Z then score * 0.9
  else score.

(** Two donors that differ at most in [last_donation_date]. *)
Definition same_but_last_donation (d1 d2 : Donor) : Prop :=
  donor_id d1 = donor_id d2 ∧ name d1 = name d2 ∧ blood_type d1 = blood_type d2
  ∧ age d1 = age d2 ∧ gender d1 = gender d2 ∧ location d1 = location d2
  ∧ latitude d1 = latitude d2 ∧ longitude d1 = longitude d2
  ∧ availability_status d1 = availability_status d2
  ∧ health_conditions d1 = health_conditions d2
  ∧ responsiveness_score d1 = responsiveness_score d2
  ∧ predicted_availability_score d1 = predicted_availability_score d2
  ∧ contact_number d1 = contact_number d2.

(** The entry [find_matches] appends for a donor, if any. *)
Definition accepted `{Geo} (now : Z) (patient : Patient) (min_score : Q)
    (donor : Donor) : option Match :=
  match find_matches_body now patient min_score donor with
  | Ok (Some m) => Some m
  | _ => None
  end.

(** The entries in the order of the pool, before sorting. *)
Definition candidates `{Geo} (now : Z) (patient : Patient) (min_score : Q)
    (donors_df : list Donor) : list Match :=
  omap (accepted now patient min_score)
       (filter (λ d, is_available d = true) donors_df).

(** The specification's "first [k] matches that satisfy [p]": scan the
    list in order and keep the entries that satisfy [p] until [k] of them
    have been kept. *)
Fixpoint first_satisfying {A : Type} (p : A → bool) (k : nat) (l : list A) : list A :=
  match k, l with
  | O, _ => []
  | _, [] => []
  | S k', x :: l' =>
      if p x then x :: first_satisfying p k' l' else first_satisfying p k l'
  end.

(** A sequence of detection passes, each with its reading of the clock and
    its DataFrame; the result lists every alert created, in order. *)
Definition detect_passes (s : Service) (passes : list (Z * list RequestRow))
    : list EmergencyAlert * Service :=
  foldl (λ acc pass,
           let '(new_alerts, s') :=
             detect_emergency_requests (fst pass) (snd acc) (snd pass) in
           (fst acc ++ new_alerts, s'))
        ([], s) passes.

(** Every alert of the active set is stored under its own request id. *)
Definition keyed (active : gmap string EmergencyAlert) : Prop :=
  ∀ k a, active !! k = Some a → request_id a = k.

(** What a run of detection steps maintains, relative to the active set
    [active0] it started from: [st] is the list of the alerts created and
    the active set. *)
Definition detect_inv (active0 : gmap string EmergencyAlert)
    (st : list EmergencyAlert * gmap string EmergencyAlert) : Prop :=
  (keyed active0 → keyed (snd st))
  ∧ NoDup (request_id <$> fst st)
  ∧ (∀ a, a ∈ fst st →
       active0 !! request_id a = None ∧ snd st !! request_id a = Some a)
  ∧ (∀ k a, active0 !! k = Some a → snd st !! k = Some a).

(** The channel a log line is about. *)
Definition log_channel (entry : DispatchLog) : string :=
  match entry with
  | NotificationSent channel _ => channel
  | NotificationError channel _ => channel
  end.

(** What the loop of [process_emergency_requests] does to the stored alert,
    by the outcome of the matching. *)
Definition outcome (matching : result (list MatchedDonor)) (alert : EmergencyAlert)
    : EmergencyAlert :=
  match matching with
  | Ok [] => alert
  | Ok matched => mark_notified alert matched
  | Raise _ => set_status alert "error"
  end.

(** The history entry the loop appends for an alert, if any. *)
Definition processed_entry `{Geo} (s : Service) (donors_df : list Donor)
    (alert : EmergencyAlert) : option HistoryEntry :=
  match find_matching_donors_for_alert s alert donors_df with
  | Ok matched => Some (history_entry alert matched)
  | Raise _ => None
  end.

(** The entry [_simple_donor_matching] appends for a donor, if any. *)
Definition simple_accepted `{Geo} (cfg : Config) (alert : EmergencyAlert)
    (donor : Donor) : option SimpleMatch :=
  match simple_matching_body cfg alert donor with
  | Ok (Some m) => Some m
  | _ => None
  end.

(** ** Concrete inputs of the examples *)

(** The instant [n] days after the origin of time. *)
Definition day (n : Z) : Z := (n * ns_per_day)%Z.

(** A stand-in for [geopy] on concrete inputs: coordinates outside
    [-90, 90] degrees of latitude are rejected with [ValueError], as
    [geopy] does; the distance is 111 km per degree along the axes. *)
Definition example_geo : Geo := {|
  geodesic lat1 lon1 lat2 lon2 :=
    if Qltb 90 (Qabs lat1) || Qltb 90 (Qabs lat2) then Raise ValueError
    else Ok (Qred (111 * (Qabs (lat1 - lat2) + Qabs (lon1 - lon2))));
  planar lat1 lon1 lat2 lon2 :=
    Qred (111 * (Qabs (lat1 - lat2) + Qabs (lon1 - lon2))) |}.

(** A patient who requires A+, urgency HIGH. *)
Definition patient_a_pos : Patient := {|
  blood_type_required := "A+";
  p_urgency_level := Some "HIGH"%string;
  p_latitude := Some 19.0;
  p_longitude := Some 72.0;
  p_location := Some "Mumbai, India"%string |}.

(** An O- donor: health "None", responsiveness 0.8, age 30, predicted
    availability 0.9 and the given last donation. *)
Definition donor_o_neg (last : donation_date) : Donor := {|
  donor_id := "DON_000001";
  name := "Donor_1";
  blood_type := "O-";
  age := Some 30%Z;
  gender := "Female";
  location := "Mumbai, India";
  latitude := Some 19.0;
  longitude := Some 72.0;
  availability_status := "Available";
  health_conditions := Some "None"%string;
  last_donation_date := last;
  responsiveness_score := Some 0.8;
  predicted_availability_score := Some 0.9;
  contact_number := Some "+91-7000000000"%string |}.

(** An O- donor with diabetes (factor 0.8), age 30, responsiveness 0.8,
    availability 0.9 and no recorded donation: for [patient_a_pos] at the
    same place the score is 100 × 2.0 × 1.0 × 0.95 × 0.8 × 1.12 × 1.1
    = 187.264. *)
Definition donor_diabetes (id : string) : Donor := {|
  donor_id := id;
  name := "Donor";
  blood_type := "O-";
  age := Some 30%Z;
  gender := "Male";
  location := "Mumbai, India";
  latitude := Some 19.0;
  longitude := Some 72.0;
  availability_status := "Available";
  health_conditions := Some "Diabetes"%string;
  last_donation_date := NoDate;
  responsiveness_score := Some 0.8;
  predicted_availability_score := Some 0.9;
  contact_number := None |}.

(** An A+ donor in good health at the given latitude. *)
Definition donor_a_pos (lat : Q) : Donor := {|
  donor_id := "DON_000002";
  name := "Donor_2";
  blood_type := "A+";
  age := Some 41%Z;
  gender := "Male";
  location := "Mumbai, India";
  latitude := Some lat;
  longitude := Some 72.0;
  availability_status := "Available";
  health_conditions := Some "None"%string;
  last_donation_date := NoDate;
  responsiveness_score := Some 0.6;
  predicted_availability_score := None;
  contact_number := Some "+91-7000000001"%string |}.

(** An emergency request for A+ blood at the place of [patient_a_pos]. *)
Definition request_a_pos (urgency : string) : EmergencyRequest := {|
  blood_type_needed := "A+";
  urgency_level := urgency;
  e_latitude := Some 19.0;
  e_longitude := Some 72.0;
  e_location := "Mumbai, India" |}.

(** An emergency request row of urgency HIGH. *)
Definition request_row (id : string) (time : Z) (lat : Q) : RequestRow := {|
  r_request_id := id;
  r_timestamp := time;
  r_urgency_level := Some "HIGH"%string;
  r_blood_type_needed := "A+";
  r_location := "Mumbai, India";
  r_latitude := Some lat;
  r_longitude := Some 72.0;
  r_units_required := Some 2%Z;
  r_hospital_name := None;
  r_contact_person := None;
  r_contact_number := None |}.

(** An alert as [detect_emergency_requests] creates it. *)
Definition example_alert (id : string) (time : Z) : EmergencyAlert := {|
  alert_id := 1;
  request_id := id;
  a_blood_type_needed := "A+";
  a_urgency_level := "HIGH";
  a_location := "Mumbai, India";
  a_latitude := 19.0;
  a_longitude := 72.0;
  units_required := 2;
  hospital_name := "Unknown";
  contact_person := "Unknown";
  a_contact_number := "Unknown";
  timestamp := time;
  status := "active";
  matched_donors := None;
  notification_sent := false |}.

(** The default configuration but for a maximum distance of zero. *)
Definition config_zero_distance : Config := {|
  check_interval_seconds := 30;
  max_alerts_per_hour := 50;
  cfg_notification_channels := ["email"; "sms"]%string;
  max_distance_km := 0;
  min_matching_score := 50;
  alert_expiry_hours := 24;
  batch_notification_size := 10 |}.

(** The entry of the simple matcher for [donor_a_pos] at distance zero. *)
Definition simple_match_a_pos : SimpleMatch := {|
  s_donor_id := "DON_000002";
  s_donor_name := "Donor_2";
  s_blood_type := "A+";
  s_location := "Mumbai, India";
  s_distance_km := 0;
  s_matching_score := 100;
  s_contact_number := "+91-7000000001";
  s_responsiveness_score := 0.6 |}.

(** ** Auxiliary definitions of the further properties *)

(** The patient with another value under ['urgency_level'] ([None]: the key
    is absent). *)
Definition with_urgency (patient : Patient) (urgency : option string) : Patient :=
  {| blood_type_required := blood_type_required patient;
     p_urgency_level := urgency;
     p_latitude := p_latitude patient;
     p_longitude := p_longitude patient;
     p_location := p_location patient |}.





(** An AB+ donor, whose blood an A+ patient cannot receive. *)
Definition donor_ab_pos : Donor := {|
  donor_id := "DON_000003";
  name := "Donor_3";
  blood_type := "AB+";
  age := Some 52%Z;
  gender := "Female";
  location := "Mumbai, India";
  latitude := Some 19.0;
  longitude := Some 72.0;
  availability_status := "Available";
  health_conditions := Some "None"%string;
  last_donation_date := NoDate;
  responsiveness_score := Some 0.7;
  predicted_availability_score := None;
  contact_number := None |}.


(** The value [batch_match_patients] stores for one patient row. *)
Definition batch_entry `{Geo} (now : Z) (donors_df : list Donor)
    (max_matches_per_patient : Z) (patient : PatientRow) : result PatientMatches :=
  found ← find_matches now (patient_dict patient) donors_df
             max_matches_per_patient 40.0;
  urgency ← subscript (p_urgency_level (patient_dict patient));
  place ← subscript (p_location (patient_dict patient));
  Ok {| patient_info :=
          {| info_name := patient_name patient;
             info_blood_type_required := blood_type_required (patient_dict patient);
             info_urgency_level := urgency;
             info_location := place |};
        matches := found;
        match_count := length (found : list Match) |}.

(** A row of [patients_df] for [patient_a_pos]. *)
Definition patient_row (id : string) : PatientRow := {|
  patient_id := id;
  patient_name := "Patient";
  patient_dict := patient_a_pos |}.

(** The alert [detect_emergency_requests] creates is the one of this row:
    recent, urgent and not yet processed. *)
Definition created_from (current_time : Z) (alert : EmergencyAlert)
    (request : RequestRow) : Prop :=
  request_id alert = r_request_id request
  ∧ a_urgency_level alert = get (r_urgency_level request) "MEDIUM"%string
  ∧ a_urgency_level alert ∈ ["HIGH"; "CRITICAL"]%string
  ∧ total_seconds current_time (r_timestamp request) <= 3600
  ∧ timestamp alert = r_timestamp request
  ∧ a_blood_type_needed alert = r_blood_type_needed request
  ∧ status alert = "active"%string
  ∧ matched_donors alert = None
  ∧ notification_sent alert = false.

(** A request row like [request_row] with the given urgency. *)
Definition request_row_urgency (id : string) (time : Z) (urgency : option string)
    : RequestRow := {|
  r_request_id := id;
  r_timestamp := time;
  r_urgency_level := urgency;
  r_blood_type_needed := "A+";
  r_location := "Mumbai, India";
  r_latitude := Some 19.0;
  r_longitude := Some 72.0;
  r_units_required := Some 2%Z;
  r_hospital_name := None;
  r_contact_person := None;
  r_contact_number := None |}.


(** * Properties *)

(** ** Rational comparisons *)

Lemma Qltb_lt (x y : Q) : Qltb x y = true ↔ x < y.
Proof.
  unfold Qltb. rewrite negb_true_iff.
  destruct (Qle_bool y x) eqn:E.
  - apply Qle_bool_iff in E. split; [discriminate | intros; lra].
  - split; [intros _ | reflexivity].
    apply Qnot_le_lt. intros H. apply Qle_bool_iff in H. congruence.
Qed.

Lemma Qltb_ge (x y : Q) : Qltb x y = false ↔ y <= x.
Proof.
  unfold Qltb. rewrite negb_false_iff. apply Qle_bool_iff.
Qed.

Lemma py_max_pos (q : Q) : 0 < q → py_max 0.0 q == q.
Proof.
  intros Hq. unfold py_max.
  destruct (Qltb 0.0 q) eqn:E; [reflexivity |].
  apply Qltb_ge in E. lra.
Qed.


(** ** The scoring engine *)

Lemma calculate_matching_score_unfold now patient donor distance avail :
  calculate_matching_score now patient donor distance avail =
  if negb (check_blood_compatibility (blood_type_required patient) (blood_type donor))
  then 0.0
  else py_max 0.0 (recency_factor now (last_donation_date donor)
                     (pre_recency_score patient donor distance avail)).
Proof. reflexivity. Qed.


Lemma urgency_weight_pos (u : string) : 0 < default 1.0 (urgency_weights !! u).
Proof.
  destruct (urgency_weights !! u) as [w|] eqn:E; simpl; [| reflexivity].
  apply elem_of_list_to_map_2 in E.
  repeat (apply elem_of_cons in E as [E | E]; [inversion E; subst; reflexivity |]).
  apply elem_of_nil in E. contradiction.
Qed.

Lemma distance_weight_pos (distance : Q) :
  0 < default 0.5 (distance_weights !! get_location_proximity distance).
Proof.
  unfold get_location_proximity.
  destruct (Qle_bool distance 10); [reflexivity |].
  destruct (Qle_bool distance 50); reflexivity.
Qed.

Lemma pre_recency_score_pos patient donor distance avail :
  -1 < get (predicted_availability_score donor) avail →
  -2 < get (responsiveness_score donor) 0.5 →
  0 < pre_recency_score patient donor distance avail.
Proof.
  intros Ha Hr. unfold pre_recency_score.
  pose proof (urgency_weight_pos (get (p_urgency_level patient) "MEDIUM"%string)) as Hu.
  pose proof (distance_weight_pos distance) as Hd.
  set (u := default 1.0 _) in *. set (w := default 0.5 _) in *.
  set (a := get (predicted_availability_score donor) avail) in *.
  set (r := get (responsiveness_score donor) 0.5) in *.
  assert (H1 : 0 < (0.0 + 100) * u * w * (0.5 + 0.5 * a)).
  { repeat apply Qmult_lt_0_compat; lra. }
  set (s1 := (0.0 + 100) * u * w * (0.5 + 0.5 * a)) in *.
  assert (H2 : 0 < (if bool_decide (health_conditions donor = Some "None"%string)
                    then s1 * 1.2 else s1 * 0.8)).
  { destruct (bool_decide _); lra. }
  set (s2 := if bool_decide _ then _ else _) in *.
  assert (H3 : 0 < s2 * (0.8 + 0.4 * r)).
  { apply Qmult_lt_0_compat; lra. }
  set (s3 := s2 * _) in *.
  destruct (_ && _)%bool; [lra |].
  destruct (_ <? _)%Z; lra.
Qed.

(** C1.  A score above zero is returned only for a compatible pair; an
    incompatible pair, and in particular a patient blood type that is not a
    key of the compatibility table, scores exactly zero.  The function is
    total: no input makes it raise. *)
Theorem C1_score_positive_only_if_compatible
    (now : Z) (patient : Patient) (donor : Donor) (distance avail : Q) :
  let score := calculate_matching_score now patient donor distance avail in
  (0 < score →
     check_blood_compatibility (blood_type_required patient) (blood_type donor) = true)
  ∧ (check_blood_compatibility (blood_type_required patient) (blood_type donor) = false →
     score = 0.0)
  ∧ (blood_compatibility !! blood_type_required patient = None →
     check_blood_compatibility (blood_type_required patient) (blood_type donor) = false
     ∧ score = 0.0).
Proof.
  intros score. subst score. rewrite calculate_matching_score_unfold.
  assert (Hinc : check_blood_compatibility (blood_type_required patient)
                   (blood_type donor) = false →
                 (if negb (check_blood_compatibility (blood_type_required patient)
                             (blood_type donor))
                  then 0.0
                  else py_max 0.0 (recency_factor now (last_donation_date donor)
                         (pre_recency_score patient donor distance avail))) = 0.0).
  { intros ->. reflexivity. }
  split; [| split].
  - destruct (check_blood_compatibility _ _) eqn:E; [reflexivity |].
    simpl. intros H. lra.
  - exact Hinc.
  - intros Hnone.
    assert (E : check_blood_compatibility (blood_type_required patient)
                  (blood_type donor) = false).
    { unfold check_blood_compatibility. rewrite Hnone. reflexivity. }
    split; [exact E | exact (Hinc E)].
Qed.

(** The three parts of C1 at concrete pairs: an O- donor for an A+ patient
    scores above zero and is compatible; an A+ donor for an O- patient and
    any donor for the unknown type "X" score zero. *)
Lemma C1_witness :
  (0 < calculate_matching_score (day 100) patient_a_pos (donor_o_neg NoDate) 5 0.5
   ∧ check_blood_compatibility "A+" "O-" = true)
  ∧ check_blood_compatibility "X" "O-" = false
  ∧ calculate_matching_score (day 100)
      {| blood_type_required := "X"; p_urgency_level := None; p_latitude := None;
         p_longitude := None; p_location := None |}
      (donor_o_neg NoDate) 5 0.5 = 0.0.
Proof.
  split.
  - split; [reflexivity |].
    apply (C1_score_positive_only_if_compatible (day 100) patient_a_pos
             (donor_o_neg NoDate) 5 0.5).
    reflexivity.
  - apply (C1_score_positive_only_if_compatible (day 100)
             {| blood_type_required := "X"; p_urgency_level := None;
                p_latitude := None; p_longitude := None; p_location := None |}
             (donor_o_neg NoDate) 5 0.5).
    reflexivity.
Defined.

Lemma recency_factor_days now t score :
  recency_factor now (DateAt t) score =
  if (56 <=? timedelta_days now t)%Z then score * 1.2
  else if (timedelta_days now t <? 30)%Z then score * 0.3
  else score.
Proof. reflexivity. Qed.

Lemma pre_recency_score_ext patient d1 d2 distance avail :
  same_but_last_donation d1 d2 →
  pre_recency_score patient d1 distance avail
  = pre_recency_score patient d2 distance avail.
Proof.
  intros (_ & _ & _ & Hage & _ & _ & _ & _ & _ & Hh & Hr & Hp & _).
  unfold pre_recency_score. rewrite Hage, Hh, Hr, Hp. reflexivity.
Qed.

(** C7.  Two donors that differ only in the date of their last donation,
    10 days ago for one and 60 days ago for the other at the time each is
    scored, and a patient compatible with their blood type: the 10-day
    donor scores strictly lower (factor 0.3 against 1.2).  The availability
    is above -1 and the responsiveness above -2, so that the score before
    the recency step is positive: the data model has both in [0, 1]. *)
Theorem C7_recent_donation_scores_lower
    (now10 now60 t10 t60 : Z) (patient : Patient) (d10 d60 : Donor)
    (distance avail : Q) :
  same_but_last_donation d10 d60 →
  last_donation_date d10 = DateAt t10 →
  last_donation_date d60 = DateAt t60 →
  timedelta_days now10 t10 = 10%Z →
  timedelta_days now60 t60 = 60%Z →
  check_blood_compatibility (blood_type_required patient) (blood_type d60) = true →
  -1 < get (predicted_availability_score d60) avail →
  -2 < get (responsiveness_score d60) 0.5 →
  calculate_matching_score now10 patient d10 distance avail
  < calculate_matching_score now60 patient d60 distance avail
  ∧ calculate_matching_score now10 patient d10 distance avail
    == pre_recency_score patient d60 distance avail * 0.3
  ∧ calculate_matching_score now60 patient d60 distance avail
    == pre_recency_score patient d60 distance avail * 1.2.
Proof.
  intros Hsame H10 H60 Hd10 Hd60 Hcompat Ha Hr.
  pose proof (pre_recency_score_pos patient d60 distance avail Ha Hr) as Hpos.
  rewrite !calculate_matching_score_unfold.
  rewrite (pre_recency_score_ext patient d10 d60 distance avail Hsame).
  destruct Hsame as (_ & _ & Hbt & _). rewrite Hbt, Hcompat. simpl negb. cbv iota.
  rewrite H10, H60, !recency_factor_days, Hd10, Hd60. simpl Z.leb. simpl Z.ltb. cbv iota.
  set (s := pre_recency_score patient d60 distance avail) in *.
  assert (E10 : py_max 0.0 (s * 0.3) == s * 0.3) by (apply py_max_pos; lra).
  assert (E60 : py_max 0.0 (s * 1.2) == s * 1.2) by (apply py_max_pos; lra).
  rewrite E10, E60. repeat split; try reflexivity. lra.
Qed.

Lemma C7_witness :
  calculate_matching_score (day 100) patient_a_pos (donor_o_neg (DateAt (day 90))) 5 0.5
  < calculate_matching_score (day 100) patient_a_pos (donor_o_neg (DateAt (day 40))) 5 0.5.
Proof.
  apply (C7_recent_donation_scores_lower (day 100) (day 100) (day 90) (day 40)
           patient_a_pos
           (donor_o_neg (DateAt (day 90))) (donor_o_neg (DateAt (day 40))) 5 0.5).
  - repeat split.
  - reflexivity.
  - reflexivity.
  - reflexivity.
  - reflexivity.
  - reflexivity.
  - reflexivity.
  - reflexivity.
Defined.

(** C3, as the code has it.  For the A+ patient of urgency HIGH and the O-
    donor at 5 km (availability 0.9, health "None", responsiveness 0.8,
    age 30, last donation 70 days ago) the score is
    100 × 2.0 × 1.0 × 0.95 × 1.2 × 1.12 × 1.1 × 1.2 = 337.0752, stored in
    the match as 337.08; with a score of at least 150 and a distance of at
    most 50 km the candidate passes the [high_priority] test. *)
Theorem C3_example_score (now t : Z) :
  timedelta_days now t = 70%Z →
  let score :=
    calculate_matching_score now patient_a_pos (donor_o_neg (DateAt t)) 5 0.9 in
  score == 100 * 2.0 * 1.0 * 0.95 * 1.2 * 1.12 * 1.1 * 1.2
  ∧ score == 337.0752
  ∧ round2 score == 337.08
  ∧ (150 <= round2 score ∧ round2 5 <= 50).
Proof.
  intros Hdays score. subst score.
  rewrite calculate_matching_score_unfold.
  change (last_donation_date (donor_o_neg (DateAt t))) with (DateAt t).
  rewrite recency_factor_days, Hdays.
  repeat split; vm_compute; congruence.
Qed.

Lemma C3_witness :
  calculate_matching_score (day 100) patient_a_pos (donor_o_neg (DateAt (day 30))) 5 0.9
  == 337.0752.
Proof.
  apply (C3_example_score (day 100) (day 30)). reflexivity.
Defined.

(** C3, as the specification has it, fails: the score of the example is
    not within 1 of 317.9 (it is 337.0752, the value of the very product
    the specification writes down). *)
Lemma C3_counterexample :
  let score :=
    calculate_matching_score (day 100) patient_a_pos
      (donor_o_neg (DateAt (day 30))) 5 0.9 in
  timedelta_days (day 100) (day 30) = 70%Z
  ∧ ¬ (317.9 - 1 <= score ∧ score <= 317.9 + 1)
  ∧ ¬ (100 * 2.0 * 1.0 * 0.95 * 1.2 * 1.12 * 1.1 * 1.2 == 317.9).
Proof.
  split; [reflexivity |]. split.
  - intros [_ H]. vm_compute in H. apply H. reflexivity.
  - intros H. vm_compute in H. discriminate.
Qed.

(** ** Rounding *)

Lemma round_half_even_floor (q : Q) :
  (Qfloor q <= round_half_even q <= Qfloor q + 1)%Z.
Proof.
  unfold round_half_even.
  destruct (Qcompare _ _); [destruct (Z.even _) | |]; lia.
Qed.

Lemma round_half_even_lower (z : Z) (q : Q) :
  inject_Z z <= q → (z <= round_half_even q)%Z.
Proof.
  intros H. apply Qfloor_resp_le in H. rewrite Qfloor_Z in H.
  pose proof (round_half_even_floor q). lia.
Qed.

Lemma round_half_even_upper (z : Z) (q : Q) :
  q <= inject_Z z → (round_half_even q <= z)%Z.
Proof.
  intros H. pose proof (Qfloor_resp_le _ _ H) as Hf. rewrite Qfloor_Z in Hf.
  pose proof (round_half_even_floor q) as Hr.
  destruct (Z.eq_dec (Qfloor q) z) as [E | NE]; [| lia].
  unfold round_half_even in *.
  destruct (Qcompare (q - inject_Z (Qfloor q)) (1 # 2)) eqn:C.
  - apply Qeq_alt in C. rewrite E in C. lra.
  - lia.
  - apply Qgt_alt in C. rewrite E in C. lra.
Qed.

Lemma Qdiv_100 (a : Q) : a / 100 == a * (1 # 100).
Proof. field. Qed.

Lemma round2_lower (z : Z) (q : Q) :
  inject_Z z / 100 <= q → inject_Z z / 100 <= round2 q.
Proof.
  intros H. unfold round2. rewrite !Qdiv_100 in *.
  assert (Hz : inject_Z z <= q * 100) by lra.
  apply round_half_even_lower in Hz.
  rewrite Zle_Qle in Hz. lra.
Qed.

Lemma round2_upper (z : Z) (q : Q) :
  q <= inject_Z z / 100 → round2 q <= inject_Z z / 100.
Proof.
  intros H. unfold round2. rewrite !Qdiv_100 in *.
  assert (Hz : q * 100 <= inject_Z z) by lra.
  apply round_half_even_upper in Hz.
  rewrite Zle_Qle in Hz. lra.
Qed.

(** ** Slices and the stable sort *)

Lemma slice_to_prefix {A : Type} (l : list A) (n : Z) : slice_to l n `prefix_of` l.
Proof. unfold slice_to. destruct (0 <=? n)%Z; apply prefix_take. Qed.

Lemma slice_to_length {A : Type} (l : list A) (n : Z) :
  (0 <= n)%Z → (Z.of_nat (length (slice_to l n)) <= n)%Z.
Proof.
  intros Hn. unfold slice_to.
  destruct (0 <=? n)%Z eqn:E; [| apply Z.leb_gt in E; lia].
  rewrite length_take. lia.
Qed.

Lemma slice_to_nat {A : Type} (l : list A) (n : nat) :
  slice_to l (Z.of_nat n) = take n l.
Proof.
  unfold slice_to. destruct (0 <=? Z.of_nat n)%Z eqn:E.
  - rewrite Nat2Z.id. reflexivity.
  - apply Z.leb_gt in E. lia.
Qed.

Section SortFacts.
Context {A : Type} (key : A → Q).

Lemma insert_desc_perm x l : insert_desc key x l ≡ₚ x :: l.
Proof.
  induction l as [| y l IH]; simpl; [reflexivity |].
  destruct (Qltb (key x) (key y)); [| reflexivity].
  rewrite IH. apply Permutation_swap.
Qed.

Lemma sort_desc_perm l : sort_desc key l ≡ₚ l.
Proof.
  induction l as [| x l IH]; simpl; [reflexivity |].
  rewrite insert_desc_perm, IH. reflexivity.
Qed.

Lemma insert_desc_sorted x l :
  StronglySorted (desc key) l → StronglySorted (desc key) (insert_desc key x l).
Proof.
  induction 1 as [| y l Hl IH Hy]; simpl.
  - repeat constructor.
  - destruct (Qltb (key x) (key y)) eqn:E.
    + constructor; [exact IH |].
      rewrite insert_desc_perm. constructor; [| exact Hy].
      apply Qltb_lt in E. unfold desc. lra.
    + apply Qltb_ge in E. constructor; [constructor; assumption |].
      constructor; [exact E |].
      eapply Forall_impl; [exact Hy |].
      intros z Hz. unfold desc in *. lra.
Qed.

Lemma sort_desc_sorted l : StronglySorted (desc key) (sort_desc key l).
Proof.
  induction l as [| x l IH]; simpl; [constructor |].
  apply insert_desc_sorted, IH.
Qed.

Lemma insert_desc_with_key k x l :
  with_key key k (insert_desc key x l) = with_key key k (x :: l).
Proof.
  unfold with_key.
  induction l as [| y l IH]; simpl; [reflexivity |].
  destruct (Qltb (key x) (key y)) eqn:E; [| reflexivity].
  apply Qltb_lt in E.
  rewrite (filter_cons _ y), IH, !(filter_cons _ x), (filter_cons _ y).
  destruct (decide (Qeq_bool (key x) k = true)) as [Hx | Hx]; [| reflexivity].
  destruct (decide (Qeq_bool (key y) k = true)) as [Hy | Hy]; [| reflexivity].
  apply Qeq_bool_iff in Hx, Hy. lra.
Qed.

(** Stability: entries of equal key keep their order. *)
Lemma sort_desc_stable k l : with_key key k (sort_desc key l) = with_key key k l.
Proof.
  induction l as [| x l IH]; simpl; [reflexivity |].
  rewrite insert_desc_with_key. unfold with_key in *.
  rewrite !(filter_cons _ x), IH. reflexivity.
Qed.

Lemma with_key_prefix k l1 l2 :
  l1 `prefix_of` l2 → with_key key k l1 `prefix_of` with_key key k l2.
Proof.
  intros [l ->]. unfold with_key. rewrite filter_app. eexists. reflexivity.
Qed.

Lemma StronglySorted_prefix (R : relation A) l1 l2 :
  l1 `prefix_of` l2 → StronglySorted R l2 → StronglySorted R l1.
Proof. intros [l ->] H. apply StronglySorted_app in H. tauto. Qed.
End SortFacts.

(** ** The ranker *)

Section Ranker.
Context `{G : Geo}.

Lemma find_matches_loop_ok now patient min_score donors matches r :
  find_matches_loop now patient min_score donors matches = Ok r →
  r = matches ++ omap (accepted now patient min_score) donors.
Proof.
  revert matches. induction donors as [| d ds IH]; intros matches; simpl.
  - intros [= <-]. rewrite app_nil_r. reflexivity.
  - unfold accepted at 1.
    destruct (find_matches_body now patient min_score d) as [[m |] | e];
      simpl; [| | discriminate].
    + intros H. rewrite (IH _ H), <- app_assoc. reflexivity.
    + apply IH.
Qed.

Lemma find_matches_body_returns now patient min_score d :
  is_Some (age d) → ∃ e, find_matches_body now patient min_score d = Ok e.
Proof.
  intros [a Ha]. unfold find_matches_body. rewrite Ha.
  destruct (Qltb _ _); [eauto |].
  destruct (Qle_bool _ _); simpl; eauto.
Qed.

Lemma find_matches_loop_returns now patient min_score donors matches :
  (∀ d, d ∈ donors → is_Some (age d)) →
  ∃ r, find_matches_loop now patient min_score donors matches = Ok r.
Proof.
  revert matches. induction donors as [| d ds IH]; intros matches Hage; simpl.
  - eauto.
  - destruct (find_matches_body_returns now patient min_score d) as [e ->].
    { apply Hage. left. }
    simpl. apply IH. intros d' Hd'. apply Hage. right. exact Hd'.
Qed.

Lemma find_matches_ok now patient donors_df max_matches min_score ms :
  find_matches now patient donors_df max_matches min_score = Ok ms →
  ms = slice_to (sort_desc m_matching_score
                   (candidates now patient min_score donors_df)) max_matches.
Proof.
  unfold find_matches, candidates.
  destruct (bool_decide _) eqn:E.
  - apply bool_decide_eq_true, nil_length_inv in E. rewrite E.
    intros [= <-]. simpl. unfold slice_to.
    destruct (0 <=? max_matches)%Z; rewrite take_nil; reflexivity.
  - destruct (find_matches_loop _ _ _ _ _) as [r | e] eqn:L; simpl; [| discriminate].
    apply find_matches_loop_ok in L. simpl in L. subst r.
    intros [= <-]. reflexivity.
Qed.

Lemma find_matches_returns now patient donors_df max_matches min_score :
  (∀ d, d ∈ donors_df → is_Some (age d)) →
  ∃ ms, find_matches now patient donors_df max_matches min_score = Ok ms.
Proof.
  intros Hage. unfold find_matches.
  destruct (bool_decide _); [eauto |].
  destruct (find_matches_loop_returns now patient min_score
              (filter (λ d, is_available d = true) donors_df) []) as [r ->].
  { intros d Hd. apply Hage. apply list_elem_of_filter in Hd. tauto. }
  simpl. eauto.
Qed.

Lemma accepted_spec now patient min_score d m :
  accepted now patient min_score d = Some m →
  let distance :=
    calculate_distance (get (p_latitude patient) 0) (get (p_longitude patient) 0)
                       (get (latitude d) 0) (get (longitude d) 0) in
  let score :=
    calculate_matching_score now patient d distance
      (get (predicted_availability_score d) 0.5) in
  distance <= max_distance ∧ min_score <= score
  ∧ m_matching_score m = round2 score ∧ m_distance_km m = round2 distance
  ∧ m_donor_id m = donor_id d
  ∧ m_urgency_level m = get (p_urgency_level patient) "MEDIUM"%string.
Proof.
  unfold accepted, find_matches_body.
  destruct (Qltb max_distance _) eqn:Hd; [discriminate |].
  destruct (Qle_bool min_score _) eqn:Hs; [| discriminate].
  destruct (age d); simpl; [| discriminate].
  intros [= <-]. simpl.
  apply Qltb_ge in Hd. apply Qle_bool_iff in Hs. auto 10.
Qed.

(** C2, as the code has it.  Whenever [find_matches] returns, and it
    does on a pool where every donor has an age, the list is sorted by
    descending [matching_score]; for [max_matches >= 0] it has at most
    [max_matches] entries; every entry comes from an eligible donor of
    the pool within the maximum distance whose unrounded score is at
    least [min_score], its [matching_score] being that score rounded to
    two decimals, which is at least [min_score] when [min_score] is a
    multiple of 0.01; entries of equal [matching_score] are in the order
    of their donors in the pool. *)
Theorem C2_find_matches_ranked
    (now : Z) (patient : Patient) (donors_df : list Donor)
    (max_matches : Z) (min_score : Q) :
  ((∀ d, d ∈ donors_df → is_Some (age d)) →
     ∃ ms, find_matches now patient donors_df max_matches min_score = Ok ms)
  ∧ ∀ ms, find_matches now patient donors_df max_matches min_score = Ok ms →
      StronglySorted (desc m_matching_score) ms
      ∧ ((0 <= max_matches)%Z → (Z.of_nat (length ms) <= max_matches)%Z)
      ∧ (∀ m, m ∈ ms →
           ∃ d, d ∈ donors_df ∧ is_available d = true
             ∧ accepted now patient min_score d = Some m
             ∧ min_score <=
                 calculate_matching_score now patient d
                   (calculate_distance
                      (get (p_latitude patient) 0) (get (p_longitude patient) 0)
                      (get (latitude d) 0) (get (longitude d) 0))
                   (get (predicted_availability_score d) 0.5)
             ∧ m_matching_score m =
                 round2 (calculate_matching_score now patient d
                   (calculate_distance
                      (get (p_latitude patient) 0) (get (p_longitude patient) 0)
                      (get (latitude d) 0) (get (longitude d) 0))
                   (get (predicted_availability_score d) 0.5))
             ∧ ∀ z, min_score == inject_Z z / 100 →
                    min_score <= m_matching_score m)
      ∧ (∀ k, with_key m_matching_score k ms
              `prefix_of`
              with_key m_matching_score k
                (candidates now patient min_score donors_df)).
Proof.
  split.
  - apply find_matches_returns.
  - intros ms Hms. apply find_matches_ok in Hms. subst ms.
    set (cs := candidates now patient min_score donors_df).
    pose proof (slice_to_prefix (sort_desc m_matching_score cs) max_matches) as Hpre.
    repeat split.
    + eapply StronglySorted_prefix; [exact Hpre | apply sort_desc_sorted].
    + apply slice_to_length.
    + intros m Hm.
      assert (Hin : m ∈ cs).
      { destruct Hpre as [l Hl].
        rewrite <- (sort_desc_perm m_matching_score cs), Hl.
        apply elem_of_app. left. exact Hm. }
      apply list_elem_of_omap in Hin as (d & Hd & Hacc).
      apply list_elem_of_filter in Hd as [Hav Hd].
      destruct (accepted_spec _ _ _ _ _ Hacc) as (_ & Hs & Hsc & _).
      exists d. repeat split; try assumption.
      intros z Hz. rewrite Hsc, Hz. apply round2_lower. rewrite <- Hz. exact Hs.
    + intros k. rewrite <- (sort_desc_stable m_matching_score k cs).
      apply with_key_prefix, Hpre.
Qed.
End Ranker.

(** C2 at a pool of three donors: the call returns, and the returned list
    is sorted and has at most ten entries. *)
Lemma C2_witness :
  ∃ ms,
    @find_matches example_geo (day 100) patient_a_pos
      [donor_diabetes "D1"; donor_o_neg (DateAt (day 30)); donor_diabetes "D2"]
      10 50 = Ok ms
    ∧ StronglySorted (desc m_matching_score) ms
    ∧ (Z.of_nat (length ms) <= 10)%Z.
Proof.
  destruct (@C2_find_matches_ranked example_geo (day 100) patient_a_pos
              [donor_diabetes "D1"; donor_o_neg (DateAt (day 30)); donor_diabetes "D2"]
              10 50) as [Hret Hprop].
  destruct Hret as [ms Hms].
  { intros d Hd.
    repeat (apply elem_of_cons in Hd as [-> | Hd]; [eexists; reflexivity |]).
    apply elem_of_nil in Hd. contradiction. }
  exists ms. split; [exact Hms |].
  destruct (Hprop ms Hms) as (Hsorted & Hlen & _).
  split; [exact Hsorted | apply Hlen; lia].
Defined.

(** C2, as the specification has it, fails twice.  The threshold is
    compared with the unrounded score (187.264 here) and the entry stores
    the rounded one (187.26): with [min_score = 187.262] both entries are
    below the threshold.  And [matches[:max_matches]] with
    [max_matches = -1] drops only the last entry: one entry is returned. *)
Lemma C2_counterexample :
  (∃ m1 m2,
     @find_matches example_geo (day 100) patient_a_pos
       [donor_diabetes "D1"; donor_diabetes "D2"] 10 187.262 = Ok [m1; m2]
     ∧ m_matching_score m1 < 187.262 ∧ m_matching_score m2 < 187.262)
  ∧ (∃ m1,
     @find_matches example_geo (day 100) patient_a_pos
       [donor_diabetes "D1"; donor_diabetes "D2"] (-1) 50 = Ok [m1]
     ∧ ¬ (Z.of_nat (length [m1]) <= -1)%Z).
Proof.
  split.
  - eexists _, _. split; [vm_compute; reflexivity |]. split; reflexivity.
  - eexists. split; [vm_compute; reflexivity |]. simpl. lia.
Qed.

Lemma first_satisfying_take_filter {A : Type} (p : A → bool) (k : nat) (l : list A) :
  first_satisfying p k l = take k (filter (λ x, p x = true) l).
Proof.
  revert k. induction l as [| x l IH]; intros [| k]; try reflexivity.
  simpl. rewrite filter_cons. destruct (p x) eqn:E.
  - rewrite decide_True by reflexivity. simpl. rewrite IH. reflexivity.
  - rewrite decide_False by discriminate. apply (IH (S k)).
Qed.

Section Emergency.
Context `{G : Geo}.

Lemma find_matches_urgency now patient donors_df max_matches min_score ms m :
  find_matches now patient donors_df max_matches min_score = Ok ms →
  m ∈ ms → m_urgency_level m = get (p_urgency_level patient) "MEDIUM"%string.
Proof.
  intros Hms Hm. apply find_matches_ok in Hms. subst ms.
  destruct (slice_to_prefix
              (sort_desc m_matching_score
                 (candidates now patient min_score donors_df)) max_matches)
    as [l Hl].
  assert (Hin : m ∈ candidates now patient min_score donors_df).
  { rewrite <- (sort_desc_perm m_matching_score), Hl.
    apply elem_of_app. left. exact Hm. }
  apply list_elem_of_omap in Hin as (d & _ & Hacc).
  apply accepted_spec in Hacc. tauto.
Qed.

(** C8.  [find_emergency_matches] runs [find_matches] with the threshold
    30 and returns three views of its result: the first 3 matches of
    urgency CRITICAL within 25 km, the first 5 matches with a score of at
    least 150 within 50 km, the first 10 matches with a score of at
    least 100.  The urgency of a match is that of the request, so the
    first view is empty unless the request is CRITICAL.  The call
    returns on a pool where every donor has an age. *)
Theorem C8_find_emergency_matches_views
    (now : Z) (request : EmergencyRequest) (donors_df : list Donor)
    (max_matches : Z) :
  ((∀ d, d ∈ donors_df → is_Some (age d)) →
     ∃ r, find_emergency_matches now request donors_df max_matches = Ok r)
  ∧ ∀ r, find_emergency_matches now request donors_df max_matches = Ok r →
      ∃ matches,
        find_matches now (emergency_patient request) donors_df max_matches 30.0
          = Ok matches
        ∧ immediate_contact r =
            first_satisfying
              (λ m, bool_decide (m_urgency_level m = "CRITICAL"%string)
                    && Qle_bool (m_distance_km m) 25) 3 matches
        ∧ high_priority r =
            first_satisfying
              (λ m, Qle_bool 150 (m_matching_score m)
                    && Qle_bool (m_distance_km m) 50) 5 matches
        ∧ backup_options r =
            first_satisfying (λ m, Qle_bool 100 (m_matching_score m)) 10 matches
        ∧ total_matches r = length matches
        ∧ (urgency_level request ≠ "CRITICAL"%string → immediate_contact r = []).
Proof.
  split.
  - intros Hage. unfold find_emergency_matches.
    destruct (find_matches_returns now (emergency_patient request) donors_df
                max_matches 30.0 Hage) as [ms ->].
    simpl. eauto.
  - intros r. unfold find_emergency_matches.
    destruct (find_matches _ _ _ _ _) as [matches | e] eqn:Hms; simpl; [| discriminate].
    intros [= <-]. exists matches. simpl.
    rewrite !first_satisfying_take_filter.
    change 3%Z with (Z.of_nat 3). change 5%Z with (Z.of_nat 5).
    change 10%Z with (Z.of_nat 10). rewrite !slice_to_nat.
    repeat split; try reflexivity.
    intros Hne.
    assert (E : filter (λ m, is_critical_match m = true) matches = []).
    { destruct (filter _ matches) as [| m l] eqn:F; [reflexivity |].
      assert (Hm : m ∈ filter (λ m, is_critical_match m = true) matches)
        by (rewrite F; left).
      apply list_elem_of_filter in Hm as [Hc Hm].
      unfold is_critical_match in Hc.
      rewrite (find_matches_urgency _ _ _ _ _ _ _ Hms Hm) in Hc. simpl in Hc.
      rewrite bool_decide_eq_false_2 in Hc by exact Hne. discriminate. }
    rewrite E. reflexivity.
Qed.
End Emergency.

(** C8 at a CRITICAL request with one donor in the pool: the call returns
    and the donor is in each of the three views, which overlap. *)
Lemma C8_witness :
  ∃ r,
    @find_emergency_matches example_geo (day 100) (request_a_pos "CRITICAL")
      [donor_o_neg (DateAt (day 30))] default_emergency_max_matches = Ok r
    ∧ m_donor_id <$> immediate_contact r = ["DON_000001"%string]
    ∧ m_donor_id <$> high_priority r = ["DON_000001"%string]
    ∧ m_donor_id <$> backup_options r = ["DON_000001"%string].
Proof.
  destruct (@C8_find_emergency_matches_views example_geo (day 100)
              (request_a_pos "CRITICAL") [donor_o_neg (DateAt (day 30))]
              default_emergency_max_matches) as [Hret Hviews].
  destruct Hret as [r Hr].
  { intros d Hd. apply list_elem_of_singleton in Hd as ->. eexists. reflexivity. }
  exists r. split; [exact Hr |].
  destruct (Hviews r Hr) as (matches & Hm & -> & -> & -> & _).
  vm_compute in Hm. injection Hm as <-.
  repeat split.
Defined.

(** ** Detection *)

Section Detection.
Variable active0 : gmap string EmergencyAlert.

Lemma detect_step_inv current_time st request :
  detect_inv active0 st → detect_inv active0 (detect_step current_time st request).
Proof.
  destruct st as [created active]. intros Hinv.
  pose proof Hinv as (Hk & Hnd & Hc & H0). simpl in Hk, Hnd, Hc, H0.
  unfold detect_step.
  destruct (bool_decide (is_Some (active !! r_request_id request))) eqn:E;
    [exact Hinv |].
  apply bool_decide_eq_false in E. rewrite <- eq_None_not_Some in E.
  destruct (Qltb 3600 _); [exact Hinv |].
  destruct (bool_decide (_ ∈ _)); [| exact Hinv].
  set (alert := {| alert_id := _ |}).
  assert (Hid : request_id alert = r_request_id request) by reflexivity.
  clearbody alert.
  unfold detect_inv. simpl. split; [| split; [| split]].
  - intros Hk0 k a. rewrite lookup_insert. case_decide as Hcase.
    + intros [= <-]. rewrite Hid. exact Hcase.
    + apply (Hk Hk0).
  - rewrite fmap_app. apply NoDup_app. split; [exact Hnd |]. split.
    + intros x Hx Hx'. simpl in Hx'. apply list_elem_of_singleton in Hx'. subst x.
      apply list_elem_of_fmap in Hx as (a & Ha & Hin).
      destruct (Hc a Hin) as [_ Hl]. rewrite <- Ha, Hid in Hl. congruence.
    + apply NoDup_singleton.
  - intros a Ha. apply elem_of_app in Ha as [Hin | Hin].
    + destruct (Hc a Hin) as [Hn Hl]. split; [exact Hn |].
      rewrite lookup_insert_ne; [exact Hl |]. intros Heq.
      rewrite <- Heq in Hl. congruence.
    + apply list_elem_of_singleton in Hin. subst a. rewrite Hid. split.
      * destruct (active0 !! r_request_id request) as [a0 |] eqn:E0; [| reflexivity].
        apply H0 in E0. congruence.
      * apply lookup_insert_eq.
  - intros k a Ha. apply H0 in Ha.
    rewrite lookup_insert_ne; [exact Ha |]. intros Heq. subst k. congruence.
Qed.

Lemma detect_fold_inv current_time requests st :
  detect_inv active0 st → detect_inv active0 (foldl (detect_step current_time) st requests).
Proof.
  revert st. induction requests as [| r rs IH]; intros st Hst; simpl; [exact Hst |].
  apply IH, detect_step_inv, Hst.
Qed.
End Detection.

Lemma detect_step_acc current_time created active request :
  detect_step current_time (created, active) request =
  (created ++ fst (detect_step current_time ([], active) request),
   snd (detect_step current_time ([], active) request)).
Proof.
  unfold detect_step.
  destruct (bool_decide (is_Some _)); [simpl; rewrite app_nil_r; reflexivity |].
  destruct (Qltb _ _); [simpl; rewrite app_nil_r; reflexivity |].
  destruct (bool_decide (_ ∈ _)); simpl; [reflexivity |].
  rewrite app_nil_r; reflexivity.
Qed.

Lemma detect_fold_acc current_time requests created acc active :
  foldl (detect_step current_time) (created ++ acc, active) requests =
  (created ++ fst (foldl (detect_step current_time) (acc, active) requests),
   snd (foldl (detect_step current_time) (acc, active) requests)).
Proof.
  revert acc active. induction requests as [| r rs IH]; intros acc active.
  - reflexivity.
  - cbn [foldl].
    rewrite (detect_step_acc _ (created ++ acc)), (detect_step_acc _ acc).
    rewrite <- app_assoc. apply IH.
Qed.

Lemma detect_pass_inv active0 current_time requests (acc : list EmergencyAlert * Service) :
  detect_inv active0 (fst acc, active_alerts (snd acc)) →
  detect_inv active0
    (fst acc ++ fst (detect_emergency_requests current_time (snd acc) requests),
     active_alerts (snd (detect_emergency_requests current_time (snd acc) requests))).
Proof.
  intros Hacc. unfold detect_emergency_requests.
  pose proof (detect_fold_acc current_time requests (fst acc) []
                (active_alerts (snd acc))) as Hf.
  rewrite app_nil_r in Hf.
  pose proof (detect_fold_inv active0 current_time requests _ Hacc) as Hinv.
  rewrite Hf in Hinv.
  destruct (foldl (detect_step current_time) ([], active_alerts (snd acc)) requests)
    as [new active].
  exact Hinv.
Qed.

Lemma detect_passes_fold_inv active0 passes (acc : list EmergencyAlert * Service) :
  detect_inv active0 (fst acc, active_alerts (snd acc)) →
  detect_inv active0
    (fst (foldl (λ acc pass,
                   let '(new_alerts, s') :=
                     detect_emergency_requests (fst pass) (snd acc) (snd pass) in
                   (fst acc ++ new_alerts, s')) acc passes),
     active_alerts
       (snd (foldl (λ acc pass,
                      let '(new_alerts, s') :=
                        detect_emergency_requests (fst pass) (snd acc) (snd pass) in
                      (fst acc ++ new_alerts, s')) acc passes))).
Proof.
  revert acc. induction passes as [| [t df] ps IH]; intros acc Hacc; [exact Hacc |].
  cbn [foldl]. apply IH. cbn [fst snd].
  pose proof (detect_pass_inv active0 t df acc Hacc) as Hp.
  destruct (detect_emergency_requests t (snd acc) df) as [new s']. exact Hp.
Qed.

Lemma detect_passes_inv active0 s passes :
  active_alerts s = active0 →
  detect_inv active0 (fst (detect_passes s passes),
                      active_alerts (snd (detect_passes s passes))).
Proof.
  intros Hs. unfold detect_passes.
  apply (detect_passes_fold_inv active0 passes ([], s)).
  unfold detect_inv. cbn [fst snd]. rewrite Hs. split; [intros Hk; exact Hk |].
  split; [constructor |]. split.
  - intros a Ha. apply elem_of_nil in Ha. contradiction.
  - intros k a Ha. exact Ha.
Qed.

Lemma detect_step_cases current_time new active request :
  detect_step current_time (new, active) request = (new, active)
  ∧ (is_Some (active !! r_request_id request)
     ∨ 3600 < total_seconds current_time (r_timestamp request)
     ∨ get (r_urgency_level request) "MEDIUM"%string ∉ ["HIGH"; "CRITICAL"]%string)
  ∨ ∃ alert,
      detect_step current_time (new, active) request
      = (new ++ [alert], <[r_request_id request := alert]> active)
      ∧ active !! r_request_id request = None
      ∧ alert_id alert = (size active + 1)%nat
      ∧ created_from current_time alert request.
Proof.
  unfold detect_step.
  destruct (bool_decide (is_Some _)) eqn:E1.
  { left. apply bool_decide_eq_true in E1. auto. }
  apply bool_decide_eq_false in E1. rewrite <- eq_None_not_Some in E1.
  destruct (Qltb 3600 _) eqn:E2.
  { left. apply Qltb_lt in E2. auto. }
  apply Qltb_ge in E2.
  destruct (bool_decide (_ ∈ _)) eqn:E3.
  - apply bool_decide_eq_true in E3. right. eexists. split; [reflexivity |].
    split; [exact E1 |]. split; [reflexivity |].
    unfold created_from. simpl. auto 10.
  - apply bool_decide_eq_false in E3. left. auto.
Qed.

Lemma detect_fold_sound current_time requests new active :
  let st := foldl (detect_step current_time) (new, active) requests in
  (∀ alert, alert ∈ fst st →
     alert ∈ new ∨ ∃ request, request ∈ requests
                    ∧ created_from current_time alert request)
  ∧ (∀ k, is_Some (active !! k) → is_Some (snd st !! k))
  ∧ (∀ k, is_Some (snd st !! k) →
       is_Some (active !! k) ∨ k ∈ request_id <$> fst st)
  ∧ (∀ request, request ∈ requests →
       get (r_urgency_level request) "MEDIUM"%string ∈ ["HIGH"; "CRITICAL"]%string →
       total_seconds current_time (r_timestamp request) <= 3600 →
       is_Some (snd st !! r_request_id request)).
Proof.
  revert new active. induction requests as [| r rs IH]; intros new active st.
  - subst st. simpl. split; [auto |]. split; [auto |]. split; [auto |].
    intros request Hin. apply elem_of_nil in Hin. contradiction.
  - subst st. cbn [foldl].
    destruct (detect_step_cases current_time new active r)
      as [[-> Hskip] | (alert & -> & Hfresh & _ & Hfrom)].
    + destruct (IH new active) as (H1 & H2 & H3 & H4).
      split; [| split; [| split]].
      * intros a Ha. destruct (H1 a Ha) as [? | (q & Hq & ?)]; [auto |].
        right. exists q. split; [right; exact Hq | assumption].
      * exact H2.
      * exact H3.
      * intros q Hq Hu Ht. apply elem_of_cons in Hq as [-> | Hq]; [| auto].
        destruct Hskip as [Hs | [Hs | Hs]]; [auto | lra | contradiction].
    + destruct (IH (new ++ [alert]) (<[r_request_id r := alert]> active))
        as (H1 & H2 & H3 & H4).
      split; [| split; [| split]].
      * intros a Ha. destruct (H1 a Ha) as [Hin | (q & Hq & ?)].
        -- apply elem_of_app in Hin as [Hin | Hin]; [auto |].
           apply list_elem_of_singleton in Hin. subst a.
           right. exists r. split; [left | exact Hfrom].
        -- right. exists q. split; [right; exact Hq | assumption].
      * intros k Hk. apply H2. rewrite lookup_insert.
        destruct (decide _); [eauto | exact Hk].
      * intros k Hk. destruct (H3 k Hk) as [Hin | Hin]; [| auto].
        rewrite lookup_insert in Hin. destruct (decide _) as [<- |]; [| auto].
        right. clear -Hfrom H1 H2 H3 Hk.
        destruct (decide (r_request_id r
                            ∈ request_id <$>
                              fst (foldl (detect_step current_time)
                                     (new ++ [alert],
                                      <[r_request_id r := alert]> active) rs)))
          as [Hyes | Hno]; [exact Hyes |].
        exfalso. apply Hno. clear Hno.
        assert (Hpre : ∀ rows st0 a, a ∈ fst st0 →
                  a ∈ fst (foldl (detect_step current_time) st0 rows)).
        { clear. induction rows as [| q qs IHq]; intros [n m] a Ha; [exact Ha |].
          cbn [foldl]. apply IHq.
          destruct (detect_step_cases current_time n m q)
            as [[-> _] | (al & -> & _)]; [exact Ha |].
          apply elem_of_app. left. exact Ha. }
        destruct Hfrom as (Hid & _). rewrite <- Hid.
        apply list_elem_of_fmap_2, Hpre. apply elem_of_app. right. left.
      * intros q Hq Hu Ht. apply elem_of_cons in Hq as [-> | Hq]; [| auto].
        apply H2. rewrite lookup_insert_eq. eauto.
Qed.

Lemma detect_passes_tracks passes (acc : list EmergencyAlert * Service) :
  let final :=
    foldl (λ acc pass,
             let '(new_alerts, s') :=
               detect_emergency_requests (fst pass) (snd acc) (snd pass) in
             (fst acc ++ new_alerts, s')) acc passes in
  (∀ a, a ∈ fst acc → a ∈ fst final)
  ∧ (∀ k, is_Some (active_alerts (snd acc) !! k) →
       is_Some (active_alerts (snd final) !! k))
  ∧ (∀ k, is_Some (active_alerts (snd final) !! k) →
       is_Some (active_alerts (snd acc) !! k) ∨ k ∈ request_id <$> fst final)
  ∧ (∀ current_time requests request,
       (current_time, requests) ∈ passes → request ∈ requests →
       get (r_urgency_level request) "MEDIUM"%string ∈ ["HIGH"; "CRITICAL"]%string →
       total_seconds current_time (r_timestamp request) <= 3600 →
       is_Some (active_alerts (snd final) !! r_request_id request)).
Proof.
  revert acc. induction passes as [| [t df] ps IH]; intros acc final.
  - subst final. simpl. split; [auto |]. split; [auto |]. split; [auto |].
    intros ? ? ? Hin. apply elem_of_nil in Hin. contradiction.
  - subst final. cbn [foldl fst snd].
    pose proof (detect_fold_sound t df [] (active_alerts (snd acc)))
      as (_ & S2 & S3 & S4).
    unfold detect_emergency_requests.
    destruct (foldl (detect_step t) ([], active_alerts (snd acc)) df)
      as [new active] eqn:Hf.
    cbn [fst snd] in S2, S3, S4.
    destruct (IH (fst acc ++ new, set_active_alerts (snd acc) active))
      as (I1 & I2 & I3 & I4).
    cbn [fst snd active_alerts set_active_alerts] in I1, I2, I3, I4.
    split; [| split; [| split]].
    + intros a Ha. apply I1, elem_of_app. left. exact Ha.
    + intros k Hk. apply I2, S2, Hk.
    + intros k Hk. destruct (I3 k Hk) as [Hact | Hin]; [| right; exact Hin].
      destruct (S3 k Hact) as [Hold | Hnew]; [left; exact Hold |].
      right. apply list_elem_of_fmap in Hnew as (a & -> & Ha).
      apply list_elem_of_fmap_2, I1, elem_of_app. right. exact Ha.
    + intros t' df' q Hpass Hq Hu Ht.
      apply elem_of_cons in Hpass as [[= -> ->] | Hpass].
      * apply I2, S4; assumption.
      * apply (I4 t' df' q Hpass Hq Hu Ht).
Qed.

(** C6.  Over any sequence of detection passes, started from an active set
    in which every alert is stored under its own request id (the empty set
    of a new service is one): no request id has two alerts created for it;
    an alert is created only for a request id that was not in the active
    set, and is then stored under that id; the alerts that were in the
    active set stay as they are; two entries of the active set never share
    a request id; a detection step on a request id that is in the active
    set changes nothing; a detection step on a request id that is not in
    the active set, for an urgent request of the last hour, creates the
    alert of this request and stores it under the request id; and every
    urgent request of the last hour presented in some pass has its alert
    in the active set at the end, which is the one and only alert created
    for its request id when the id was not in the active set at the
    start. *)
Theorem C6_detection_idempotent (s : Service) (passes : list (Z * list RequestRow)) :
  keyed (active_alerts s) →
  let created := fst (detect_passes s passes) in
  let active := active_alerts (snd (detect_passes s passes)) in
  NoDup (request_id <$> created)
  ∧ (∀ a, a ∈ created →
       active_alerts s !! request_id a = None ∧ active !! request_id a = Some a)
  ∧ (∀ k a, active_alerts s !! k = Some a → active !! k = Some a)
  ∧ (∀ k1 k2 a1 a2,
       active !! k1 = Some a1 → active !! k2 = Some a2 →
       request_id a1 = request_id a2 → k1 = k2 ∧ a1 = a2)
  ∧ (∀ current_time new_alerts (act : gmap string EmergencyAlert) request,
       is_Some (act !! r_request_id request) →
       detect_step current_time (new_alerts, act) request = (new_alerts, act))
  ∧ (∀ current_time new_alerts (act : gmap string EmergencyAlert) request,
       act !! r_request_id request = None →
       get (r_urgency_level request) "MEDIUM"%string ∈ ["HIGH"; "CRITICAL"]%string →
       total_seconds current_time (r_timestamp request) <= 3600 →
       ∃ alert,
         detect_step current_time (new_alerts, act) request
         = (new_alerts ++ [alert], <[r_request_id request := alert]> act)
         ∧ created_from current_time alert request)
  ∧ (∀ current_time requests request,
       (current_time, requests) ∈ passes → request ∈ requests →
       get (r_urgency_level request) "MEDIUM"%string ∈ ["HIGH"; "CRITICAL"]%string →
       total_seconds current_time (r_timestamp request) <= 3600 →
       ∃ a, active !! r_request_id request = Some a
            ∧ request_id a = r_request_id request
            ∧ (active_alerts s !! r_request_id request = None →
               a ∈ created
               ∧ ∀ a', a' ∈ created →
                   request_id a' = r_request_id request → a' = a)).
Proof.
  intros Hk created active.
  destruct (detect_passes_inv (active_alerts s) s passes eq_refl)
    as (Hkeyed & Hnd & Hc & H0).
  cbn [fst snd] in Hkeyed, Hnd, Hc, H0. specialize (Hkeyed Hk).
  split; [exact Hnd |]. split; [exact Hc |]. split; [exact H0 |].
  split; [| split; [| split]].
  - intros k1 k2 a1 a2 H1 H2 Heq.
    pose proof (Hkeyed _ _ H1) as E1. pose proof (Hkeyed _ _ H2) as E2.
    assert (Hkk : k1 = k2) by congruence. split; [exact Hkk |].
    rewrite Hkk in H1. congruence.
  - intros current_time new_alerts act request Hin. unfold detect_step.
    rewrite bool_decide_eq_true_2 by exact Hin. reflexivity.
  - intros current_time new_alerts act request Hfresh Hu Ht.
    destruct (detect_step_cases current_time new_alerts act request)
      as [[_ Hskip] | (alert & Hstep & _ & _ & Hfrom)].
    + exfalso. destruct Hskip as [Hs | [Hs | Hs]].
      * rewrite Hfresh in Hs. destruct Hs as [? Hs]. discriminate Hs.
      * lra.
      * contradiction.
    + exists alert. split; [exact Hstep | exact Hfrom].
  - intros current_time requests request Hpass Hreq Hu Ht.
    destruct (detect_passes_tracks passes ([], s)) as (_ & _ & T3 & T4).
    cbn [fst snd] in T3, T4.
    destruct (T4 current_time requests request Hpass Hreq Hu Ht) as [a Ha].
    fold (detect_passes s passes) in Ha, T3.
    exists a. split; [exact Ha |]. split; [exact (Hkeyed _ _ Ha) |].
    intros Hnone.
    assert (Hin : a ∈ created).
    { destruct (T3 (r_request_id request) (ex_intro _ a Ha)) as [[? Hold] | Hnew].
      - rewrite Hnone in Hold. discriminate Hold.
      - apply list_elem_of_fmap in Hnew as (a' & Hid & Ha').
        destruct (Hc a' Ha') as [_ Hl]. rewrite <- Hid in Hl.
        assert (a' = a) by congruence. subst a'. exact Ha'. }
    split; [exact Hin |].
    intros a' Ha' Hid. destruct (Hc a' Ha') as [_ Hl]. rewrite Hid in Hl.
    unfold active in Ha. congruence.
Qed.

(** C6 at a new service: the request "REQ_1" is presented twice in a first
    pass and once more in a second pass; one alert is created. *)
Lemma C6_witness :
  let passes :=
    [ (day 100, [request_row "REQ_1" (day 100) 19.0; request_row "REQ_1" (day 100) 19.0]);
      ((day 100 + 5)%Z, [request_row "REQ_1" (day 100) 19.0]) ] in
  NoDup (request_id <$> fst (detect_passes (new_service None) passes))
  ∧ request_id <$> fst (detect_passes (new_service None) passes) = ["REQ_1"%string]
  ∧ size (active_alerts (snd (detect_passes (new_service None) passes))) = 1%nat.
Proof.
  intros passes. split; [| split; reflexivity].
  apply (C6_detection_idempotent (new_service None) passes).
  intros k a Hk. simpl in Hk. rewrite lookup_empty in Hk. discriminate.
Defined.

(** ** Cleanup *)

Lemma lookup_foldl_delete (m : gmap string EmergencyAlert) (ks : list string) (k : string) :
  foldl (λ active request_id, delete request_id active) m ks !! k
  = if decide (k ∈ ks) then None else m !! k.
Proof.
  revert m. induction ks as [| k' ks IH]; intros m; cbn [foldl].
  - destruct (decide (k ∈ [])) as [H | H]; [| reflexivity].
    apply elem_of_nil in H. contradiction.
  - rewrite IH.
    destruct (decide (k ∈ ks)) as [Hin | Hnin], (decide (k ∈ k' :: ks)) as [Hc | Hc];
      try reflexivity.
    + exfalso. apply Hc. right. exact Hin.
    + apply elem_of_cons in Hc as [-> | Hc]; [| contradiction].
      apply lookup_delete_eq.
    + apply lookup_delete_ne. intros ->. apply Hc. left.
Qed.

Lemma cleanup_lookup current_time s k :
  active_alerts (_cleanup_expired_alerts current_time s) !! k
  = match active_alerts s !! k with
    | Some alert =>
        if is_expired (config s) current_time alert then None else Some alert
    | None => None
    end.
Proof.
  unfold _cleanup_expired_alerts. cbn [active_alerts set_active_alerts].
  rewrite lookup_foldl_delete.
  destruct (decide (k ∈ _)) as [Hin | Hnin].
  - apply list_elem_of_fmap in Hin as ([k' a] & -> & Hin).
    apply list_elem_of_filter in Hin as [He Hin].
    apply elem_of_map_to_list in Hin. simpl in *. rewrite Hin, He. reflexivity.
  - destruct (active_alerts s !! k) as [a |] eqn:E; [| reflexivity].
    destruct (is_expired (config s) current_time a) eqn:He; [| reflexivity].
    exfalso. apply Hnin. apply list_elem_of_fmap. exists (k, a). split; [reflexivity |].
    apply list_elem_of_filter. split; [exact He |].
    apply elem_of_map_to_list. exact E.
Qed.

(** C9.  After the cleanup step an alert is in the active set exactly when
    it was there before and its age, the current time minus its creation
    timestamp, does not exceed the configured number of hours; its status
    plays no part.  So no alert older than the TTL remains, and the alert
    history is the same list as before.  The default TTL is 24 hours. *)
Theorem C9_cleanup_removes_expired (current_time : Z) (s : Service) :
  let s' := _cleanup_expired_alerts current_time s in
  (∀ k, active_alerts s' !! k
        = match active_alerts s !! k with
          | Some alert =>
              if Qltb (alert_expiry_hours (config s) * 3600)
                      (total_seconds current_time (timestamp alert))
              then None else Some alert
          | None => None
          end)
  ∧ (∀ k alert, active_alerts s' !! k = Some alert →
       total_seconds current_time (timestamp alert)
       <= alert_expiry_hours (config s) * 3600)
  ∧ (∀ k alert, active_alerts s !! k = Some alert →
       alert_expiry_hours (config s) * 3600
       < total_seconds current_time (timestamp alert) →
       active_alerts s' !! k = None)
  ∧ alert_history s' = alert_history s
  ∧ config s' = config s
  ∧ alert_expiry_hours _get_default_config = 24.
Proof.
  intros s'. subst s'. split; [| split; [| split]].
  - intros k. apply cleanup_lookup.
  - intros k alert. rewrite cleanup_lookup.
    destruct (active_alerts s !! k) as [a |]; [| discriminate].
    unfold is_expired. destruct (Qltb _ _) eqn:E; [discriminate |].
    intros [= <-]. apply Qltb_ge in E. exact E.
  - intros k alert Hk Hage. rewrite cleanup_lookup, Hk. unfold is_expired.
    apply Qltb_lt in Hage. rewrite Hage. reflexivity.
  - repeat split.
Qed.

(** C9 at an active set with an alert of status "notified" created 25
    hours before the cleanup and one created an hour before it: the first
    is removed, the second stays. *)
Lemma C9_witness :
  let old := set_status (example_alert "REQ_OLD" (day 100)) "notified" in
  let recent := example_alert "REQ_NEW" (day 101) in
  let s := set_active_alerts (new_service None)
             (<["REQ_OLD"%string := old]> (<["REQ_NEW"%string := recent]> ∅)) in
  let current_time := (day 101 + 3600 * ns_per_second)%Z in
  active_alerts (_cleanup_expired_alerts current_time s) !! "REQ_OLD"%string = None
  ∧ active_alerts (_cleanup_expired_alerts current_time s) !! "REQ_NEW"%string
    = Some recent.
Proof.
  intros old recent s current_time. split.
  - apply (C9_cleanup_removes_expired current_time s) with (alert := old);
      reflexivity.
  - reflexivity.
Defined.

(** ** Dispatch *)

(** C5, as the code has it.  For a non-empty list of matched donors,
    [send_emergency_notifications] sets [notification_sent] and
    [matched_donors] and leaves the status of the alert as it was: no code
    of the service assigns 'notified'.  Every configured channel that is
    registered gets its task, in order, and the outcome of each task, a
    result or the exception it raised, is in the log whatever the other
    channels did. *)
Theorem C5_dispatch_marks_alert (s : Service) (alert : EmergencyAlert)
    (matched : list MatchedDonor) :
  matched ≠ [] →
  let alert' := fst (send_emergency_notifications s alert matched) in
  let log := snd (send_emergency_notifications s alert matched) in
  notification_sent alert' = true
  ∧ matched_donors alert' = Some matched
  ∧ status alert' = status alert
  ∧ log_channel <$> log
    = filter (λ channel, is_Some (notification_channels s !! channel))
             (cfg_notification_channels (config s))
  ∧ (∀ channel sink,
       channel ∈ cfg_notification_channels (config s) →
       notification_channels s !! channel = Some sink →
       match sink (generate_alert_message alert matched) alert matched with
       | Ok sent => NotificationSent channel sent ∈ log
       | Raise e => NotificationError channel e ∈ log
       end).
Proof.
  intros Hne. destruct matched as [| m matched]; [contradiction |].
  cbn [send_emergency_notifications fst snd]. repeat split.
  - rewrite <- list_fmap_compose. apply list_eq. intros i.
    rewrite !list_lookup_fmap.
    destruct (filter _ _ !! i) as [c |]; [| reflexivity].
    simpl. unfold _send_notification_async.
    destruct (_ ≫= _); reflexivity.
  - intros channel sink Hin Hsink.
    assert (Htask : channel ∈ filter
              (λ channel, is_Some (notification_channels s !! channel))
              (cfg_notification_channels (config s))).
    { apply list_elem_of_filter. split; [exists sink; exact Hsink | exact Hin]. }
    apply (list_elem_of_fmap_2
             (λ channel, _send_notification_async s channel
                (generate_alert_message alert (m :: matched)) alert (m :: matched)))
      in Htask.
    unfold _send_notification_async at 1 in Htask. rewrite Hsink in Htask.
    simpl in Htask.
    destruct (sink _ alert (m :: matched)); exact Htask.
Qed.

(** C5 at the default service with one failing and one working channel:
    the alert is marked, and both outcomes are logged. *)
Lemma C5_witness :
  let working : Sink := λ _ _ _, Ok true in
  let s := {| config := _get_default_config;
              active_alerts := ∅;
              alert_history := [];
              matching_system := None;
              notification_channels :=
                <["sms"%string := working]> (notification_channels (new_service None)) |} in
  let alert := example_alert "REQ_1" (day 100) in
  let res := send_emergency_notifications s alert [FromSimple simple_match_a_pos] in
  notification_sent (fst res) = true
  ∧ snd res = [NotificationError "email" TypeError; NotificationSent "sms" true].
Proof.
  intros working s alert res. split; [| reflexivity].
  apply (C5_dispatch_marks_alert s alert [FromSimple simple_match_a_pos]).
  discriminate.
Defined.

(** C5, as the specification has it, fails: after the dispatch the status
    of the alert is still 'active', not 'notified'. *)
Lemma C5_counterexample :
  let alert := example_alert "REQ_1" (day 100) in
  let alert' :=
    fst (send_emergency_notifications (new_service None) alert
           [FromSimple simple_match_a_pos]) in
  status alert = "active"%string
  ∧ status alert' = "active"%string
  ∧ status alert' ≠ "notified"%string
  ∧ matched_donors alert' = Some [FromSimple simple_match_a_pos].
Proof. repeat split. discriminate. Qed.

(** ** The processing pass *)

Lemma omap_pointwise {A B : Type} (f g : A → option B) (l : list A) :
  (∀ x, f x = g x) → omap f l = omap g l.
Proof.
  intros Hfg. induction l as [| x l IH]; [reflexivity |].
  cbn [omap list_omap]. rewrite Hfg, IH. reflexivity.
Qed.

Lemma omap_cons_option_list {A B : Type} (f : A → option B) (x : A) (l : list A) :
  omap f (x :: l) = option_list (f x) ++ omap f l.
Proof. cbn [omap list_omap]. destruct (f x); reflexivity. Qed.

Section Processing.
Context `{G : Geo}.

Lemma find_matching_donors_ext s1 s2 alert donors_df :
  config s1 = config s2 → matching_system s1 = matching_system s2 →
  find_matching_donors_for_alert s1 alert donors_df
  = find_matching_donors_for_alert s2 alert donors_df.
Proof.
  intros Hc Hm. unfold find_matching_donors_for_alert. rewrite Hc, Hm. reflexivity.
Qed.

Lemma processed_entry_ext s1 s2 donors_df alert :
  config s1 = config s2 → matching_system s1 = matching_system s2 →
  processed_entry s1 donors_df alert = processed_entry s2 donors_df alert.
Proof.
  intros Hc Hm. unfold processed_entry.
  rewrite (find_matching_donors_ext s1 s2 alert donors_df Hc Hm). reflexivity.
Qed.

Lemma process_alert_config donors_df s alert :
  config (process_alert donors_df s alert) = config s
  ∧ matching_system (process_alert donors_df s alert) = matching_system s.
Proof.
  unfold process_alert.
  destruct (find_matching_donors_for_alert s alert donors_df) as [[| m l] | e];
    split; reflexivity.
Qed.

Lemma process_alert_history donors_df s alert :
  alert_history (process_alert donors_df s alert)
  = alert_history s ++ option_list (processed_entry s donors_df alert).
Proof.
  unfold process_alert, processed_entry.
  destruct (find_matching_donors_for_alert s alert donors_df) as [[| m l] | e];
    simpl; [reflexivity | reflexivity |].
  rewrite app_nil_r. reflexivity.
Qed.

Lemma process_alert_lookup donors_df s alert k :
  active_alerts (process_alert donors_df s alert) !! k
  = if decide (request_id alert = k)
    then outcome (find_matching_donors_for_alert s alert donors_df)
           <$> active_alerts s !! k
    else active_alerts s !! k.
Proof.
  unfold process_alert, outcome.
  destruct (find_matching_donors_for_alert s alert donors_df) as [[| m l] | e];
    cbn [active_alerts set_alert_history set_active_alerts].
  - destruct (decide _); [| reflexivity].
    destruct (active_alerts s !! k); reflexivity.
  - rewrite lookup_alter. destruct (decide _) as [<- |]; reflexivity.
  - rewrite lookup_alter. destruct (decide _) as [<- |]; reflexivity.
Qed.

Lemma process_loop donors_df alerts s :
  NoDup (request_id <$> alerts) →
  let s' := foldl (process_alert donors_df) s alerts in
  config s' = config s
  ∧ matching_system s' = matching_system s
  ∧ alert_history s' = alert_history s ++ omap (processed_entry s donors_df) alerts
  ∧ (∀ alert, alert ∈ alerts →
       active_alerts s' !! request_id alert
       = outcome (find_matching_donors_for_alert s alert donors_df)
           <$> active_alerts s !! request_id alert)
  ∧ (∀ k, k ∉ request_id <$> alerts → active_alerts s' !! k = active_alerts s !! k).
Proof.
  revert s. induction alerts as [| a alerts IH]; intros s Hnd; cbn [foldl].
  - split; [reflexivity |]. split; [reflexivity |]. split.
    + simpl. rewrite app_nil_r. reflexivity.
    + split; [| reflexivity]. intros alert Hin. apply elem_of_nil in Hin. contradiction.
  - rewrite fmap_cons in Hnd. apply NoDup_cons in Hnd as [Hfresh Hnd].
    destruct (process_alert_config donors_df s a) as [Hc Hm].
    destruct (IH (process_alert donors_df s a) Hnd) as (Hc' & Hm' & Hh & Hl & Ho).
    split; [congruence |]. split; [congruence |]. split; [| split].
    + rewrite Hh, process_alert_history, omap_cons_option_list.
      rewrite <- app_assoc. f_equal. f_equal.
      assert (Homap : omap (processed_entry (process_alert donors_df s a) donors_df) alerts
                      = omap (processed_entry s donors_df) alerts).
      { apply omap_pointwise. intros x.
        apply processed_entry_ext; assumption. }
      exact Homap.
    + intros alert Hin. apply elem_of_cons in Hin as [-> | Hin].
      * rewrite (Ho _ Hfresh), process_alert_lookup.
        rewrite decide_True by reflexivity. reflexivity.
      * rewrite (Hl _ Hin), process_alert_lookup.
        rewrite decide_False.
        -- rewrite (find_matching_donors_ext _ s alert donors_df Hc Hm). reflexivity.
        -- intros Heq. apply Hfresh. rewrite Heq.
           apply list_elem_of_fmap_2. exact Hin.
    + intros k Hk. rewrite fmap_cons in Hk.
      rewrite Ho, process_alert_lookup.
      * rewrite decide_False; [reflexivity |]. intros Heq. apply Hk. rewrite Heq. left.
      * intros Hin. apply Hk. right. exact Hin.
Qed.

Lemma detect_emergency_requests_config current_time s requests :
  config (snd (detect_emergency_requests current_time s requests)) = config s
  ∧ matching_system (snd (detect_emergency_requests current_time s requests))
    = matching_system s
  ∧ alert_history (snd (detect_emergency_requests current_time s requests))
    = alert_history s.
Proof.
  unfold detect_emergency_requests.
  destruct (foldl _ _ _) as [new active]. repeat split.
Qed.

Lemma detect_emergency_requests_inv current_time s requests :
  detect_inv (active_alerts s)
    (fst (detect_emergency_requests current_time s requests),
     active_alerts (snd (detect_emergency_requests current_time s requests))).
Proof.
  pose proof (detect_passes_inv (active_alerts s) s [(current_time, requests)] eq_refl)
    as H.
  unfold detect_passes in H. cbn [foldl fst snd] in H.
  destruct (detect_emergency_requests current_time s requests) as [new s'].
  exact H.
Qed.

(** C4, as the code has it.  In one processing pass the history grows by
    one entry, of status 'processed' and with the number of matched
    donors, for each newly detected alert whose matching and dispatch
    return, in the order of detection; an alert for which an exception is
    raised gets no entry: its status is set to 'error' and the pass goes
    on with the next alert. *)
Theorem C4_history_per_processed_alert
    (detect_time cleanup_time : Z) (s : Service)
    (requests : list RequestRow) (donors_df : list Donor) :
  let new_alerts := fst (detect_emergency_requests detect_time s requests) in
  let s' := process_emergency_requests detect_time cleanup_time s requests donors_df in
  alert_history s' = alert_history s ++ omap (processed_entry s donors_df) new_alerts
  ∧ (∀ alert matched,
       find_matching_donors_for_alert s alert donors_df = Ok matched →
       processed_entry s donors_df alert
       = Some {| h_alert_id := alert_id alert;
                 h_timestamp := timestamp alert;
                 h_status := "processed";
                 h_matched_donors_count := length matched |})
  ∧ (∀ alert e,
       alert ∈ new_alerts →
       find_matching_donors_for_alert s alert donors_df = Raise e →
       processed_entry s donors_df alert = None
       ∧ ∀ stored, active_alerts s' !! request_id alert = Some stored →
           stored = set_status alert "error" ∧ status stored = "error"%string).
Proof.
  intros new_alerts s'. subst new_alerts s'.
  unfold process_emergency_requests.
  pose proof (detect_emergency_requests_config detect_time s requests) as (Hc & Hm & Hh).
  pose proof (detect_emergency_requests_inv detect_time s requests) as (_ & Hnd & Hst & _).
  destruct (detect_emergency_requests detect_time s requests) as [new s1].
  cbn [fst snd] in *.
  destruct (process_loop donors_df new s1 Hnd) as (Hc2 & Hm2 & Hh2 & Hl2 & _).
  assert (Hentry : omap (processed_entry s1 donors_df) new
                   = omap (processed_entry s donors_df) new).
  { apply omap_pointwise. intros x.
    apply processed_entry_ext; assumption. }
  split; [| split].
  - destruct new as [| a new]; [simpl; rewrite app_nil_r; exact Hh |].
    set (alerts := a :: new) in *.
    transitivity (alert_history (foldl (process_alert donors_df) s1 alerts));
      [reflexivity |].
    rewrite Hh2, Hh, Hentry. reflexivity.
  - intros alert matched Hok. unfold processed_entry. rewrite Hok. reflexivity.
  - intros alert e Hin Hraise. split.
    { unfold processed_entry. rewrite Hraise. reflexivity. }
    intros stored Hstored.
    destruct new as [| a new]; [apply elem_of_nil in Hin; contradiction |].
    set (alerts := a :: new) in *.
    rewrite cleanup_lookup in Hstored.
    rewrite (Hl2 alert Hin) in Hstored.
    destruct (Hst alert Hin) as [_ Hin1]. rewrite Hin1 in Hstored.
    rewrite (find_matching_donors_ext s1 s alert donors_df Hc Hm), Hraise in Hstored.
    simpl in Hstored.
    destruct (is_expired _ _ _); [discriminate |].
    injection Hstored as <-. split; reflexivity.
Qed.
End Processing.

(** C4 at a pass with one request.  With a donor the simple matcher
    accepts, one entry of status 'processed' is appended; with a donor
    whose latitude [geopy] rejects, the matching raises and the stored
    alert gets the status 'error'. *)
Lemma C4_witness :
  let alert := example_alert "REQ_1" (day 100) in
  let pass donors :=
    @process_emergency_requests example_geo (day 100) (day 100) (new_service None)
      [request_row "REQ_1" (day 100) 19.0] donors in
  alert_history (pass [donor_a_pos 19.0])
  = [{| h_alert_id := 1; h_timestamp := day 100; h_status := "processed";
        h_matched_donors_count := 1 |}]
  ∧ ∀ stored,
      active_alerts (pass [donor_a_pos 95]) !! "REQ_1"%string = Some stored →
      stored = set_status alert "error" ∧ status stored = "error"%string.
Proof.
  intros alert pass. subst pass. cbv beta. split.
  - destruct (@C4_history_per_processed_alert example_geo (day 100) (day 100)
                (new_service None) [request_row "REQ_1" (day 100) 19.0]
                [donor_a_pos 19.0]) as (Hh & _ & _).
    rewrite Hh. reflexivity.
  - destruct (@C4_history_per_processed_alert example_geo (day 100) (day 100)
                (new_service None) [request_row "REQ_1" (day 100) 19.0]
                [donor_a_pos 95]) as (_ & _ & Herr).
    apply (Herr alert ValueError).
    + left.
    + reflexivity.
Defined.

(** C4, as the specification has it, fails.  Two alerts are detected, the
    matching raises for both (the latitude of the donor is out of range),
    and no entry at all is appended to the history.  The same happens with
    a maximum distance of zero and a donor at the place of the request:
    the score divides by zero. *)
Lemma C4_counterexample :
  let requests :=
    [request_row "REQ_1" (day 100) 19.0; request_row "REQ_2" (day 100) 19.0] in
  let new_alerts :=
    fst (detect_emergency_requests (day 100) (new_service None) requests) in
  let s' :=
    @process_emergency_requests example_geo (day 100) (day 100) (new_service None)
      requests [donor_a_pos 95] in
  let s0 :=
    @process_emergency_requests example_geo (day 100) (day 100)
      (new_service (Some config_zero_distance))
      [request_row "REQ_1" (day 100) 19.0] [donor_a_pos 19.0] in
  (request_id <$> new_alerts = ["REQ_1"; "REQ_2"]%string
   ∧ Forall (λ alert,
         @find_matching_donors_for_alert example_geo (new_service None) alert
           [donor_a_pos 95] = Raise ValueError) new_alerts
   ∧ alert_history (new_service None) = []
   ∧ alert_history s' = []
   ∧ status <$> active_alerts s' !! "REQ_1"%string = Some "error"%string
   ∧ status <$> active_alerts s' !! "REQ_2"%string = Some "error"%string)
  ∧ (@find_matching_donors_for_alert example_geo
       (new_service (Some config_zero_distance))
       (example_alert "REQ_1" (day 100)) [donor_a_pos 19.0]
     = Raise ZeroDivisionError
     ∧ alert_history s0 = []
     ∧ status <$> active_alerts s0 !! "REQ_1"%string = Some "error"%string).
Proof.
  split.
  - split; [reflexivity |]. split; [| repeat split].
    repeat constructor.
  - repeat split.
Qed.

(** ** The built-in simple matcher *)

Section SimpleMatcher.
Context `{G : Geo}.

Lemma simple_matching_loop_ok cfg alert donors matches r :
  simple_matching_loop cfg alert donors matches = Ok r →
  r = matches ++ omap (simple_accepted cfg alert) donors.
Proof.
  revert matches. induction donors as [| d ds IH]; intros matches; simpl.
  - intros [= <-]. rewrite app_nil_r. reflexivity.
  - unfold simple_accepted at 1.
    destruct (simple_matching_body cfg alert d) as [[m |] | e];
      simpl; [| | discriminate].
    + intros H. rewrite (IH _ H), <- app_assoc. reflexivity.
    + apply IH.
Qed.

Lemma simple_matching_body_returns alert d :
  (∃ km, _calculate_distance (a_latitude alert) (a_longitude alert)
           (get (latitude d) 0) (get (longitude d) 0) = Ok km) →
  ∃ e, simple_matching_body _get_default_config alert d = Ok e.
Proof.
  intros [km Hkm]. unfold simple_matching_body. rewrite Hkm. simpl.
  destruct (Qle_bool km 100); simpl; eauto.
Qed.

Lemma simple_matching_loop_returns alert donors matches :
  (∀ d, d ∈ donors →
     ∃ km, _calculate_distance (a_latitude alert) (a_longitude alert)
             (get (latitude d) 0) (get (longitude d) 0) = Ok km) →
  ∃ r, simple_matching_loop _get_default_config alert donors matches = Ok r.
Proof.
  revert matches. induction donors as [| d ds IH]; intros matches Hd.
  - simpl. eauto.
  - cbn [simple_matching_loop].
    destruct (simple_matching_body_returns alert d) as [e ->].
    { apply Hd. left. }
    simpl. apply IH. intros d' Hd'. apply Hd. right. exact Hd'.
Qed.

Lemma simple_accepted_spec alert d m :
  simple_accepted _get_default_config alert d = Some m →
  ∃ distance,
    _calculate_distance (a_latitude alert) (a_longitude alert)
      (get (latitude d) 0) (get (longitude d) 0) = Ok distance
    ∧ distance <= 100
    ∧ s_matching_score m = round2 (100 - distance / 100 * 50)
    ∧ s_distance_km m = round2 distance
    ∧ s_blood_type m = blood_type d
    ∧ s_donor_id m = donor_id d.
Proof.
  unfold simple_accepted, simple_matching_body.
  destruct (_calculate_distance _ _ _ _) as [km | e]; simpl; [| discriminate].
  destruct (Qle_bool km 100) eqn:Hle; simpl; [| discriminate].
  intros [= <-]. exists km. apply Qle_bool_iff in Hle. simpl. auto 10.
Qed.

Lemma simple_score_range (distance : Q) :
  distance <= 100 →
  50 <= 100 - distance / 100 * 50
  ∧ 50 <= round2 (100 - distance / 100 * 50)
  ∧ (0 <= distance →
     100 - distance / 100 * 50 <= 100
     ∧ round2 (100 - distance / 100 * 50) <= 100).
Proof.
  intros Hd. pose proof (Qdiv_100 distance) as Hx.
  set (x := distance / 100) in *.
  assert (H50 : 50 <= 100 - x * 50) by lra.
  split; [exact H50 |]. split.
  - assert (E : 50 == inject_Z 5000 / 100) by reflexivity.
    rewrite E at 1. apply round2_lower. rewrite <- E. exact H50.
  - intros H0. assert (H100 : 100 - x * 50 <= 100) by lra.
    split; [exact H100 |].
    assert (E : 100 == inject_Z 10000 / 100) by reflexivity.
    rewrite E at 2. apply round2_upper. rewrite <- E. exact H100.
Qed.

(** C10.  A service built with its defaults has no matching system, and
    [find_matching_donors_for_alert] is then the built-in simple matcher.
    Whenever it returns, and it does when no distance computation
    raises, at most 10 entries are returned, sorted by descending score;
    each comes from a donor of the pool whose blood type is exactly the
    requested one, whose status is 'Available' and whose health condition
    is 'None', at a distance of at most 100 km; its score is
    100 - (distance / 100) * 50 rounded to two decimals, at least 50 and,
    the distance being non-negative, at most 100. *)
Theorem C10_default_service_simple_matcher
    (alert : EmergencyAlert) (donors_df : list Donor) :
  matching_system (new_service None) = None
  ∧ max_distance_km (config (new_service None)) = 100
  ∧ find_matching_donors_for_alert (new_service None) alert donors_df
    = match _simple_donor_matching _get_default_config alert donors_df with
      | Ok matches => Ok (FromSimple <$> matches)
      | Raise e => Raise e
      end
  ∧ ((∀ d, d ∈ donors_df →
        ∃ km, _calculate_distance (a_latitude alert) (a_longitude alert)
                (get (latitude d) 0) (get (longitude d) 0) = Ok km) →
     ∃ ms, _simple_donor_matching _get_default_config alert donors_df = Ok ms)
  ∧ ∀ ms, _simple_donor_matching _get_default_config alert donors_df = Ok ms →
      (length ms <= 10)%nat
      ∧ StronglySorted (desc s_matching_score) ms
      ∧ ∀ m, m ∈ ms →
          ∃ d distance,
            d ∈ donors_df
            ∧ blood_type d = a_blood_type_needed alert
            ∧ s_blood_type m = a_blood_type_needed alert
            ∧ s_donor_id m = donor_id d
            ∧ availability_status d = "Available"%string
            ∧ health_conditions d = Some "None"%string
            ∧ _calculate_distance (a_latitude alert) (a_longitude alert)
                (get (latitude d) 0) (get (longitude d) 0) = Ok distance
            ∧ distance <= 100
            ∧ s_matching_score m = round2 (100 - distance / 100 * 50)
            ∧ 50 <= s_matching_score m
            ∧ (0 <= distance → s_matching_score m <= 100).
Proof.
  split; [reflexivity |]. split; [reflexivity |]. split; [reflexivity |]. split.
  - intros Hd. unfold _simple_donor_matching.
    destruct (bool_decide _); [eauto |].
    destruct (simple_matching_loop_returns alert
                (filter (λ d, is_simple_compatible alert d = true) donors_df) [])
      as [r ->].
    { intros d Hin. apply Hd. apply list_elem_of_filter in Hin. tauto. }
    simpl. eauto.
  - intros ms. unfold _simple_donor_matching.
    set (compatible := filter _ donors_df).
    assert (Hms : ∀ l, l `prefix_of`
                       sort_desc s_matching_score
                         (omap (simple_accepted _get_default_config alert) compatible) →
              (length l <= 10)%nat →
              (length l <= 10)%nat
              ∧ StronglySorted (desc s_matching_score) l
              ∧ ∀ m, m ∈ l →
                  ∃ d distance,
                    d ∈ donors_df
                    ∧ blood_type d = a_blood_type_needed alert
                    ∧ s_blood_type m = a_blood_type_needed alert
                    ∧ s_donor_id m = donor_id d
                    ∧ availability_status d = "Available"%string
                    ∧ health_conditions d = Some "None"%string
                    ∧ _calculate_distance (a_latitude alert) (a_longitude alert)
                        (get (latitude d) 0) (get (longitude d) 0) = Ok distance
                    ∧ distance <= 100
                    ∧ s_matching_score m = round2 (100 - distance / 100 * 50)
                    ∧ 50 <= s_matching_score m
                    ∧ (0 <= distance → s_matching_score m <= 100)).
    { intros l Hpre Hlen. split; [exact Hlen |]. split.
      - eapply StronglySorted_prefix; [exact Hpre | apply sort_desc_sorted].
      - intros m Hm. destruct Hpre as [l' Hl'].
        assert (Hin : m ∈ omap (simple_accepted _get_default_config alert) compatible).
        { rewrite <- (sort_desc_perm s_matching_score), Hl'.
          apply elem_of_app. left. exact Hm. }
        apply list_elem_of_omap in Hin as (d & Hd & Hacc).
        apply list_elem_of_filter in Hd as [Hcompat Hd].
        unfold is_simple_compatible in Hcompat.
        apply andb_prop in Hcompat as [Hcompat Hhealth].
        apply andb_prop in Hcompat as [Hbt Hav].
        apply bool_decide_eq_true in Hbt, Hav, Hhealth.
        destruct (simple_accepted_spec alert d m Hacc)
          as (km & Hkm & Hle & Hscore & _ & Hmbt & Hid).
        destruct (simple_score_range km Hle) as (_ & Hlow & Hup).
        exists d, km. rewrite Hscore.
        split; [exact Hd |]. split; [exact Hbt |]. split; [congruence |].
        split; [exact Hid |]. split; [exact Hav |]. split; [exact Hhealth |].
        split; [exact Hkm |]. split; [exact Hle |]. split; [reflexivity |].
        split; [exact Hlow |]. intros H0. apply Hup, H0. }
    destruct (bool_decide _) eqn:E.
    + apply bool_decide_eq_true, nil_length_inv in E. intros [= <-].
      apply Hms; [| simpl; lia]. apply prefix_nil.
    + destruct (simple_matching_loop _ _ _ _) as [r | e] eqn:L; simpl; [| discriminate].
      apply simple_matching_loop_ok in L. simpl in L. subst r. intros [= <-].
      apply Hms; [apply slice_to_prefix |].
      pose proof (slice_to_length
                    (sort_desc s_matching_score
                       (omap (simple_accepted _get_default_config alert) compatible))
                    10 ltac:(lia)).
      lia.
Qed.
End SimpleMatcher.

(** C10 at a pool of three donors: the two A+ donors are returned, the
    nearer one first; the O- donor, compatible with an A+ patient by the
    compatibility table, is not. *)
Lemma C10_witness :
  ∃ ms,
    @_simple_donor_matching example_geo _get_default_config
      (example_alert "REQ_1" (day 100))
      [donor_a_pos 19.5; donor_a_pos 19.0; donor_o_neg NoDate] = Ok ms
    ∧ (length ms <= 10)%nat
    ∧ s_matching_score <$> ms = [100.00; 72.25]
    ∧ check_blood_compatibility "A+" "O-" = true.
Proof.
  destruct (@C10_default_service_simple_matcher example_geo
              (example_alert "REQ_1" (day 100))
              [donor_a_pos 19.5; donor_a_pos 19.0; donor_o_neg NoDate])
    as (_ & _ & _ & Hret & Hprop).
  destruct Hret as [ms Hms].
  { intros d Hd.
    repeat (apply elem_of_cons in Hd as [-> | Hd]; [eexists; reflexivity |]).
    apply elem_of_nil in Hd. contradiction. }
  exists ms. split; [exact Hms |].
  destruct (Hprop ms Hms) as (Hlen & _).
  split; [exact Hlen |].
  vm_compute in Hms. injection Hms as <-. split; reflexivity.
Defined.

(** * Further properties of the code *)

(** ** The compatibility table *)

Lemma check_blood_compatibility_inv (p d : string) :
  check_blood_compatibility p d = true →
  (p, d) ∈
    [ ("O-", "O-"); ("O+", "O+"); ("O+", "O-"); ("A-", "A-"); ("A-", "O-");
      ("A+", "A+"); ("A+", "A-"); ("A+", "O+"); ("A+", "O-");
      ("B-", "B-"); ("B-", "O-");
      ("B+", "B+"); ("B+", "B-"); ("B+", "O+"); ("B+", "O-");
      ("AB-", "AB-"); ("AB-", "A-"); ("AB-", "B-"); ("AB-", "O-");
      ("AB+", "AB+"); ("AB+", "AB-"); ("AB+", "A+"); ("AB+", "A-");
      ("AB+", "B+"); ("AB+", "B-"); ("AB+", "O+"); ("AB+", "O-") ]%string.
Proof.
  unfold check_blood_compatibility. intros H. apply bool_decide_eq_true in H.
  destruct (blood_compatibility !! p) as [l |] eqn:E;
    [| apply elem_of_nil in H; contradiction].
  apply elem_of_list_to_map_2 in E. simpl in H.
  repeat (apply elem_of_cons in E as [E | E];
          [injection E as -> ->;
           repeat (apply elem_of_cons in H as [-> | H];
                   [repeat first [left | right] |]);
           apply elem_of_nil in H; contradiction |]).
  apply elem_of_nil in E. contradiction.
Qed.

Lemma known_blood_type_inv (t : string) :
  is_Some (blood_compatibility !! t) →
  t ∈ ["O-"; "O+"; "A-"; "A+"; "B-"; "B+"; "AB-"; "AB+"]%string.
Proof.
  intros [l E]. apply elem_of_list_to_map_2 in E.
  repeat (apply elem_of_cons in E as [E | E];
          [injection E as -> _; repeat first [left | right] |]).
  apply elem_of_nil in E. contradiction.
Qed.

(** X1.  On the eight blood types of the table, compatibility is an order:
    every type is compatible with itself, compatibility is transitive and
    two distinct types are never compatible both ways.  O- is accepted by
    every patient type and AB+ accepts every donor type; a type that is not
    in the table is compatible with nothing, either as patient or as
    donor. *)
Theorem X1_compatibility_is_an_order :
  (∀ t, is_Some (blood_compatibility !! t) → check_blood_compatibility t t = true)
  ∧ (∀ p d e,
       check_blood_compatibility p d = true →
       check_blood_compatibility d e = true →
       check_blood_compatibility p e = true)
  ∧ (∀ p d,
       check_blood_compatibility p d = true →
       check_blood_compatibility d p = true → p = d)
  ∧ (∀ p, is_Some (blood_compatibility !! p) →
       check_blood_compatibility p "O-" = true)
  ∧ (∀ d, is_Some (blood_compatibility !! d) →
       check_blood_compatibility "AB+" d = true)
  ∧ (∀ p d, check_blood_compatibility p d = true →
       is_Some (blood_compatibility !! p) ∧ is_Some (blood_compatibility !! d)).
Proof.
  split; [| split; [| split; [| split; [| split]]]].
  - intros t Ht. apply known_blood_type_inv in Ht.
    repeat (apply elem_of_cons in Ht as [-> | Ht]; [reflexivity |]).
    apply elem_of_nil in Ht. contradiction.
  - intros p d e Hpd Hde. apply check_blood_compatibility_inv in Hpd.
    repeat (apply elem_of_cons in Hpd as [Hpd | Hpd];
            [injection Hpd as -> ->;
             apply check_blood_compatibility_inv in Hde;
             repeat (apply elem_of_cons in Hde as [Hde | Hde];
                     [first [discriminate Hde
                            | injection Hde as ->; reflexivity] |]);
             apply elem_of_nil in Hde; contradiction |]).
    apply elem_of_nil in Hpd. contradiction.
  - intros p d Hpd Hdp. apply check_blood_compatibility_inv in Hpd.
    repeat (apply elem_of_cons in Hpd as [Hpd | Hpd];
            [injection Hpd as -> ->;
             first [reflexivity | vm_compute in Hdp; discriminate Hdp] |]).
    apply elem_of_nil in Hpd. contradiction.
  - intros p Hp. apply known_blood_type_inv in Hp.
    repeat (apply elem_of_cons in Hp as [-> | Hp]; [reflexivity |]).
    apply elem_of_nil in Hp. contradiction.
  - intros d Hd. apply known_blood_type_inv in Hd.
    repeat (apply elem_of_cons in Hd as [-> | Hd]; [reflexivity |]).
    apply elem_of_nil in Hd. contradiction.
  - intros p d Hpd. apply check_blood_compatibility_inv in Hpd.
    repeat (apply elem_of_cons in Hpd as [Hpd | Hpd];
            [injection Hpd as -> ->; split; eexists; reflexivity |]).
    apply elem_of_nil in Hpd. contradiction.
Qed.

(** X1 at A+: O- is compatible with A- and A- with A+, hence O- with A+. *)
Lemma X1_witness :
  check_blood_compatibility "A+" "O-" = true
  ∧ is_Some (blood_compatibility !! "A+"%string).
Proof.
  split.
  - apply (proj1 (proj2 X1_compatibility_is_an_order) "A+" "A-" "O-")%string;
      reflexivity.
  - apply (proj2 (proj2 (proj2 (proj2 (proj2 X1_compatibility_is_an_order))))
             "A+" "O-")%string.
    reflexivity.
Defined.

(** ** How the score varies *)

Lemma distance_weight_cases (x : Q) :
  (x <= 10 ∧ default 0.5 (distance_weights !! get_location_proximity x) = 1.0)
  ∨ (10 < x ∧ x <= 50
     ∧ default 0.5 (distance_weights !! get_location_proximity x) = 0.8)
  ∨ (50 < x ∧ default 0.5 (distance_weights !! get_location_proximity x) = 0.6).
Proof.
  unfold get_location_proximity.
  destruct (Qle_bool x 10) eqn:E10.
  - left. apply Qle_bool_iff in E10. split; [exact E10 | reflexivity].
  - assert (H10 : 10 < x).
    { apply Qnot_le_lt. intros H. apply Qle_bool_iff in H. congruence. }
    destruct (Qle_bool x 50) eqn:E50.
    + right. left. apply Qle_bool_iff in E50. repeat split; assumption.
    + right. right. split; [| reflexivity].
      apply Qnot_le_lt. intros H. apply Qle_bool_iff in H. congruence.
Qed.

Lemma urgency_weight_cases (u : string) :
  default 1.0 (urgency_weights !! u) ∈ [1.0; 1.5; 2.0; 3.0].
Proof.
  destruct (urgency_weights !! u) as [w |] eqn:E; simpl; [| left].
  apply elem_of_list_to_map_2 in E.
  repeat (apply elem_of_cons in E as [E | E];
          [injection E as _ <-; repeat first [left | right] |]).
  apply elem_of_nil in E. contradiction.
Qed.

(** The score before the recency step is proportional to the distance
    weight and to the urgency weight. *)
Lemma pre_recency_score_distance patient donor x1 x2 avail :
  pre_recency_score patient donor x1 avail
  * default 0.5 (distance_weights !! get_location_proximity x2)
  == pre_recency_score patient donor x2 avail
     * default 0.5 (distance_weights !! get_location_proximity x1).
Proof.
  unfold pre_recency_score.
  destruct (bool_decide _); destruct (_ && _)%bool; try destruct (_ <? _)%Z; ring.
Qed.

Lemma pre_recency_score_urgency patient u1 u2 donor distance avail :
  pre_recency_score (with_urgency patient u1) donor distance avail
  * default 1.0 (urgency_weights !! get u2 "MEDIUM"%string)
  == pre_recency_score (with_urgency patient u2) donor distance avail
     * default 1.0 (urgency_weights !! get u1 "MEDIUM"%string).
Proof.
  unfold pre_recency_score. cbn [p_urgency_level with_urgency].
  destruct (bool_decide _); destruct (_ && _)%bool; try destruct (_ <? _)%Z; ring.
Qed.

Lemma py_max_le (a b : Q) : a <= b ∨ a <= 0 → py_max 0.0 a <= py_max 0.0 b.
Proof.
  intros H. unfold py_max.
  destruct (Qltb 0.0 a) eqn:Ea, (Qltb 0.0 b) eqn:Eb;
    try apply Qltb_lt in Ea; try apply Qltb_ge in Ea;
    try apply Qltb_lt in Eb; try apply Qltb_ge in Eb;
    destruct H; lra.
Qed.

(** The last two steps of the score, applied to two scores [s1] and [s2]
    of which the first is a fraction of the second. *)
Lemma final_score_le now last_donation (s1 s2 k1 k2 : Q) :
  s1 * k2 == s2 * k1 → 0 < k1 → k1 <= k2 →
  py_max 0.0 (recency_factor now last_donation s1)
  <= py_max 0.0 (recency_factor now last_donation s2).
Proof.
  intros Hk Hk1 Hk12.
  assert (Hk2 : 0 < k2) by lra.
  assert (Hle : (0 <= s2 → s1 <= s2 ∧ 0 <= s1) ∧ (s2 < 0 → s1 < 0)).
  { split.
    - intros H2. pose proof (Qmult_le_0_compat _ _ H2 (Qlt_le_weak _ _ Hk1)) as P2.
      assert (H1 : 0 <= s1).
      { destruct (Qlt_le_dec s1 0) as [Hneg | Hok]; [| exact Hok].
        assert (P1 : 0 < (- s1) * k2) by (apply Qmult_lt_0_compat; lra). lra. }
      split; [| exact H1].
      destruct (Qlt_le_dec s2 s1) as [Hgt | Hok]; [| exact Hok].
      assert (P3 : 0 < (s1 - s2) * k2) by (apply Qmult_lt_0_compat; lra).
      assert (P4 : 0 <= s2 * (k2 - k1)) by (apply Qmult_le_0_compat; lra).
      lra.
    - intros H2. destruct (Qlt_le_dec s1 0) as [Hneg | Hok]; [exact Hneg |].
      assert (P1 : 0 <= s1 * k2) by (apply Qmult_le_0_compat; lra).
      assert (P2 : 0 < (- s2) * k1) by (apply Qmult_lt_0_compat; lra).
      lra. }
  destruct Hle as [Hpos Hneg].
  assert (Hcases : (s1 <= s2 ∧ 0 <= s1) ∨ (s1 < 0 ∧ s2 < 0)).
  { destruct (Qlt_le_dec s2 0) as [H2 | H2]; [right | left]; auto. }
  apply py_max_le. unfold recency_factor.
  destruct last_donation as [| | t];
    [| | destruct (56 <=? _)%Z; [| destruct (_ <? 30)%Z]];
    destruct Hcases as [[H H0] | [H H0]]; first [left; lra | right; lra].
Qed.

(** X2.  All else equal, a donor at a smaller distance never gets a lower
    score: the distance weight only falls as the distance grows (1.0 up to
    10 km, 0.8 up to 50 km, 0.6 beyond), and a negative product is raised
    to zero at either distance. *)
Theorem X2_closer_never_scores_lower
    (now : Z) (patient : Patient) (donor : Donor) (near far avail : Q) :
  near <= far →
  calculate_matching_score now patient donor far avail
  <= calculate_matching_score now patient donor near avail.
Proof.
  intros Hle. rewrite !calculate_matching_score_unfold.
  destruct (negb _); [lra |].
  apply (final_score_le now (last_donation_date donor) _ _
           (default 0.5 (distance_weights !! get_location_proximity far))
           (default 0.5 (distance_weights !! get_location_proximity near))).
  - apply pre_recency_score_distance.
  - apply distance_weight_pos.
  - destruct (distance_weight_cases near) as [[Hn ->] | [(Hn & Hn' & ->) | [Hn ->]]],
             (distance_weight_cases far) as [[Hf ->] | [(Hf & Hf' & ->) | [Hf ->]]];
      lra.
Qed.

Lemma X2_witness :
  calculate_matching_score (day 100) patient_a_pos (donor_o_neg NoDate) 60 0.5
  <= calculate_matching_score (day 100) patient_a_pos (donor_o_neg NoDate) 5 0.5.
Proof.
  apply (X2_closer_never_scores_lower (day 100) patient_a_pos (donor_o_neg NoDate)
           5 60 0.5).
  vm_compute. discriminate.
Defined.

Lemma score_urgency_le now patient u1 u2 donor distance avail :
  default 1.0 (urgency_weights !! get u1 "MEDIUM"%string)
  <= default 1.0 (urgency_weights !! get u2 "MEDIUM"%string) →
  calculate_matching_score now (with_urgency patient u1) donor distance avail
  <= calculate_matching_score now (with_urgency patient u2) donor distance avail.
Proof.
  intros Hle. rewrite !calculate_matching_score_unfold.
  cbn [blood_type_required with_urgency].
  destruct (negb _); [lra |].
  apply (final_score_le now (last_donation_date donor) _ _
           (default 1.0 (urgency_weights !! get u1 "MEDIUM"%string))
           (default 1.0 (urgency_weights !! get u2 "MEDIUM"%string))).
  - apply pre_recency_score_urgency.
  - apply urgency_weight_pos.
  - exact Hle.
Qed.

Lemma score_urgency_eq now patient u1 u2 donor distance avail :
  default 1.0 (urgency_weights !! get u1 "MEDIUM"%string)
  = default 1.0 (urgency_weights !! get u2 "MEDIUM"%string) →
  calculate_matching_score now (with_urgency patient u1) donor distance avail
  = calculate_matching_score now (with_urgency patient u2) donor distance avail.
Proof.
  intros Heq. rewrite !calculate_matching_score_unfold.
  unfold pre_recency_score. cbn [blood_type_required p_urgency_level with_urgency].
  rewrite Heq. reflexivity.
Qed.

(** X3.  All else equal, the score rises with the urgency of the patient:
    LOW, MEDIUM, HIGH, CRITICAL in this order.  A patient without an
    urgency level is scored as MEDIUM, and a level that is not one of the
    four is scored as LOW. *)
Theorem X3_score_rises_with_urgency
    (now : Z) (patient : Patient) (donor : Donor) (distance avail : Q) :
  let score urgency :=
    calculate_matching_score now (with_urgency patient urgency) donor distance avail in
  score (Some "LOW"%string) <= score (Some "MEDIUM"%string)
  ∧ score (Some "MEDIUM"%string) <= score (Some "HIGH"%string)
  ∧ score (Some "HIGH"%string) <= score (Some "CRITICAL"%string)
  ∧ score None = score (Some "MEDIUM"%string)
  ∧ ∀ level, urgency_weights !! level = None →
      score (Some level) = score (Some "LOW"%string).
Proof.
  intros score. subst score. cbv beta.
  split; [| split; [| split; [| split]]].
  - apply score_urgency_le. vm_compute. discriminate.
  - apply score_urgency_le. vm_compute. discriminate.
  - apply score_urgency_le. vm_compute. discriminate.
  - apply score_urgency_eq. reflexivity.
  - intros level Hnone. apply score_urgency_eq.
    cbn [get]. rewrite Hnone. reflexivity.
Qed.

Lemma X3_witness :
  calculate_matching_score (day 100) (with_urgency patient_a_pos (Some "urgent"%string))
    (donor_o_neg NoDate) 5 0.5
  = calculate_matching_score (day 100) (with_urgency patient_a_pos (Some "LOW"%string))
      (donor_o_neg NoDate) 5 0.5.
Proof.
  apply (X3_score_rises_with_urgency (day 100) patient_a_pos (donor_o_neg NoDate) 5 0.5).
  reflexivity.
Defined.

Lemma Qmult_bounds (a x b c y d : Q) :
  0 <= a → a <= x → x <= b → 0 <= c → c <= y → y <= d →
  a * c <= x * y ∧ x * y <= b * d.
Proof.
  intros Ha Hax Hxb Hc Hcy Hyd.
  assert (P1 : 0 <= (x - a) * y) by (apply Qmult_le_0_compat; lra).
  assert (P2 : 0 <= a * (y - c)) by (apply Qmult_le_0_compat; lra).
  assert (P3 : 0 <= (b - x) * y) by (apply Qmult_le_0_compat; lra).
  assert (P4 : 0 <= b * (d - y)) by (apply Qmult_le_0_compat; lra).
  split; lra.
Qed.

Lemma pre_recency_score_range patient donor distance avail :
  0 <= get (predicted_availability_score donor) avail <= 1 →
  0 <= get (responsiveness_score donor) 0.5 <= 1 →
  17.28 <= pre_recency_score patient donor distance avail <= 475.2.
Proof.
  intros [Ha0 Ha1] [Hr0 Hr1]. unfold pre_recency_score.
  set (a := get (predicted_availability_score donor) avail) in *.
  set (r := get (responsiveness_score donor) 0.5) in *.
  assert (H1 : 60 <= (0.0 + 100)
                     * default 1.0 (urgency_weights
                                      !! get (p_urgency_level patient) "MEDIUM"%string)
                     * default 0.5 (distance_weights !! get_location_proximity distance)
                  <= 300).
  { pose proof (urgency_weight_cases (get (p_urgency_level patient) "MEDIUM"%string))
      as Hu.
    set (u := default 1.0 _) in *.
    assert (Hu' : 1 <= u <= 3).
    { repeat (apply elem_of_cons in Hu as [-> | Hu]; [split; lra |]).
      apply elem_of_nil in Hu. contradiction. }
    clearbody u. clear Hu.
    destruct (distance_weight_cases distance) as [[_ ->] | [(_ & _ & ->) | [_ ->]]];
      lra. }
  set (s1 := (0.0 + 100) * _ * _) in *. clearbody s1.
  destruct (Qmult_bounds 60 s1 300 0.5 (0.5 + 0.5 * a) 1) as [L2 U2]; try lra.
  set (s2 := s1 * (0.5 + 0.5 * a)) in *. clearbody s2.
  assert (H3 : 24 <= (if bool_decide (health_conditions donor = Some "None"%string)
                      then s2 * 1.2 else s2 * 0.8) <= 360).
  { destruct (bool_decide _); lra. }
  set (s3 := if bool_decide _ then _ else _) in *. clearbody s3.
  destruct (Qmult_bounds 24 s3 360 0.8 (0.8 + 0.4 * r) 1.2) as [L4 U4]; try lra.
  set (s4 := s3 * (0.8 + 0.4 * r)) in *. clearbody s4.
  destruct (_ && _)%bool; [lra |]. destruct (_ <? _)%Z; lra.
Qed.

(** X4.  For a compatible pair with availability and responsiveness in
    [0, 1] the score lies between 5.18 and 570.25.  The product of 100 and
    the smallest, respectively the largest, value of each of the seven
    factors is 5.184, respectively 570.24; the bounds stated leave a margin
    below and above these products, so that they do not depend on the last
    digits of a floating-point product.  In particular a threshold of 5 or
    less never excludes a compatible donor. *)
Theorem X4_score_range
    (now : Z) (patient : Patient) (donor : Donor) (distance avail : Q) :
  check_blood_compatibility (blood_type_required patient) (blood_type donor) = true →
  0 <= get (predicted_availability_score donor) avail <= 1 →
  0 <= get (responsiveness_score donor) 0.5 <= 1 →
  5.18 <= calculate_matching_score now patient donor distance avail <= 570.25.
Proof.
  intros Hc Ha Hr. rewrite calculate_matching_score_unfold, Hc. cbn [negb].
  pose proof (pre_recency_score_range patient donor distance avail Ha Hr) as [L U].
  set (s := pre_recency_score patient donor distance avail) in *. clearbody s.
  assert (Hrec : 5.184 <= recency_factor now (last_donation_date donor) s <= 570.24).
  { unfold recency_factor. destruct (last_donation_date donor) as [| | t];
      [lra | lra |].
    destruct (56 <=? _)%Z; [lra |]. destruct (_ <? 30)%Z; lra. }
  destruct Hrec as [Lr Ur].
  rewrite py_max_pos by lra. split; lra.
Qed.

(** X4 at the A+ patient and the O- donor of the examples. *)
Lemma X4_witness :
  5.18 <= calculate_matching_score (day 100) patient_a_pos (donor_o_neg NoDate) 5 0.5
  ∧ calculate_matching_score (day 100) patient_a_pos (donor_o_neg NoDate) 5 0.5
    <= 570.25.
Proof.
  apply (X4_score_range (day 100) patient_a_pos (donor_o_neg NoDate) 5 0.5).
  - reflexivity.
  - split; vm_compute; discriminate.
  - split; vm_compute; discriminate.
Defined.

(** ** More on the ranker *)



Section RankerMore.
Context `{G : Geo}.

Lemma accepted_fields now patient min_score d m :
  accepted now patient min_score d = Some m →
  m_blood_type m = blood_type d
  ∧ m_donor_name m = name d
  ∧ age d = Some (m_age m)
  ∧ m_health_conditions m = health_conditions d
  ∧ m_contact_number m = contact_number d.
Proof.
  unfold accepted, find_matches_body.
  destruct (Qltb max_distance _); [discriminate |].
  destruct (Qle_bool min_score _); [| discriminate].
  destruct (age d); simpl; [| discriminate].
  intros [= <-]. simpl. auto.
Qed.

Lemma find_matches_elem now patient donors_df max_matches min_score ms m :
  find_matches now patient donors_df max_matches min_score = Ok ms →
  m ∈ ms →
  ∃ d, d ∈ donors_df ∧ is_available d = true
       ∧ accepted now patient min_score d = Some m.
Proof.
  intros Hms Hm. apply find_matches_ok in Hms. subst ms.
  destruct (slice_to_prefix
              (sort_desc m_matching_score
                 (candidates now patient min_score donors_df)) max_matches)
    as [l Hl].
  assert (Hin : m ∈ candidates now patient min_score donors_df).
  { rewrite <- (sort_desc_perm m_matching_score), Hl.
    apply elem_of_app. left. exact Hm. }
  apply list_elem_of_omap in Hin as (d & Hd & Hacc).
  apply list_elem_of_filter in Hd as [Hav Hd]. eauto.
Qed.

Lemma is_available_spec d :
  is_available d = true →
  availability_status d = "Available"%string
  ∧ health_conditions d ≠ Some "HIV/AIDS"%string
  ∧ health_conditions d ≠ Some "Hepatitis"%string.
Proof.
  unfold is_available. intros H.
  apply andb_prop in H as [H H3]. apply andb_prop in H as [H1 H2].
  apply bool_decide_eq_true in H1.
  apply negb_true_iff, bool_decide_eq_false in H2, H3. auto.
Qed.

(** X5.  With a positive threshold every returned match comes from a donor
    whose blood type is compatible with the patient's, who is 'Available',
    has neither 'HIV/AIDS' nor 'Hepatitis' and is at most 100 km away (the
    stored distance is at most 100 too).  With a threshold of zero or less
    the compatibility test no longer filters: an incompatible donor within
    100 km is accepted with the score 0. *)
Theorem X5_matches_are_eligible
    (now : Z) (patient : Patient) (donors_df : list Donor)
    (max_matches : Z) (min_score : Q) :
  (0 < min_score →
   ∀ ms, find_matches now patient donors_df max_matches min_score = Ok ms →
     ∀ m, m ∈ ms →
       ∃ d, d ∈ donors_df
         ∧ m_donor_id m = donor_id d
         ∧ m_blood_type m = blood_type d
         ∧ check_blood_compatibility (blood_type_required patient) (blood_type d) = true
         ∧ availability_status d = "Available"%string
         ∧ health_conditions d ≠ Some "HIV/AIDS"%string
         ∧ health_conditions d ≠ Some "Hepatitis"%string
         ∧ calculate_distance
             (get (p_latitude patient) 0) (get (p_longitude patient) 0)
             (get (latitude d) 0) (get (longitude d) 0) <= 100
         ∧ m_distance_km m <= 100)
  ∧ (min_score <= 0 →
     ∀ d, is_Some (age d) →
       calculate_distance
         (get (p_latitude patient) 0) (get (p_longitude patient) 0)
         (get (latitude d) 0) (get (longitude d) 0) <= 100 →
       check_blood_compatibility (blood_type_required patient) (blood_type d) = false →
       ∃ m, accepted now patient min_score d = Some m
            ∧ m_donor_id m = donor_id d ∧ m_matching_score m == 0).
Proof.
  split.
  - intros Hpos ms Hms m Hm.
    destruct (find_matches_elem _ _ _ _ _ _ _ Hms Hm) as (d & Hd & Hav & Hacc).
    destruct (accepted_spec _ _ _ _ _ Hacc) as (Hdist & Hscore & _ & Hkm & Hid & _).
    destruct (accepted_fields _ _ _ _ _ Hacc) as (Hbt & _).
    destruct (is_available_spec d Hav) as (Hst & Hh1 & Hh2).
    exists d. split; [exact Hd |]. split; [exact Hid |]. split; [exact Hbt |].
    split.
    { rewrite calculate_matching_score_unfold in Hscore.
      destruct (check_blood_compatibility _ _); [reflexivity |].
      simpl in Hscore. lra. }
    split; [exact Hst |]. split; [exact Hh1 |]. split; [exact Hh2 |].
    unfold max_distance in Hdist. split; [exact Hdist |].
    rewrite Hkm.
    assert (E : 100 == inject_Z 10000 / 100) by reflexivity.
    rewrite E. apply round2_upper. rewrite <- E. exact Hdist.
  - intros Hmin d [a Ha] Hdist Hinc.
    unfold accepted, find_matches_body.
    assert (Hd : Qltb max_distance
                   (calculate_distance
                      (get (p_latitude patient) 0) (get (p_longitude patient) 0)
                      (get (latitude d) 0) (get (longitude d) 0)) = false)
      by (apply Qltb_ge; exact Hdist).
    rewrite Hd, calculate_matching_score_unfold, Hinc. cbn [negb].
    assert (Hs : Qle_bool min_score 0.0 = true) by (apply Qle_bool_iff; lra).
    rewrite Hs, Ha. simpl. eexists. split; [reflexivity |]. split; reflexivity.
Qed.

End RankerMore.

(** X5 at a pool with a compatible and an incompatible donor: with the
    threshold 50 the returned donor is compatible. *)
Lemma X5_witness :
  ∃ ms,
    @find_matches example_geo (day 100) patient_a_pos
      [donor_o_neg NoDate; donor_ab_pos] 10 50 = Ok ms
    ∧ length ms = 1%nat
    ∧ ∀ m, m ∈ ms →
        ∃ d, d ∈ [donor_o_neg NoDate; donor_ab_pos]
          ∧ m_donor_id m = donor_id d
          ∧ check_blood_compatibility "A+" (blood_type d) = true.
Proof.
  destruct (@find_matches_returns example_geo (day 100) patient_a_pos
              [donor_o_neg NoDate; donor_ab_pos] 10 50) as [ms Hms].
  { intros d Hd.
    repeat (apply elem_of_cons in Hd as [-> | Hd]; [eexists; reflexivity |]).
    apply elem_of_nil in Hd. contradiction. }
  exists ms. split; [exact Hms |]. split.
  - vm_compute in Hms. injection Hms as <-. reflexivity.
  - intros m Hm.
    destruct (@X5_matches_are_eligible example_geo (day 100) patient_a_pos
                [donor_o_neg NoDate; donor_ab_pos] 10 50) as [Hpos _].
    destruct (Hpos ltac:(reflexivity) ms Hms m Hm) as (d & Hd & Hid & _ & Hc & _).
    exists d. auto.
Defined.


Section RankerErrors.
Context `{G : Geo}.







(** X7.  The best [n] matches are the first [n] of the best [m] matches,
    for [0 <= n <= m]: a smaller [max_matches] only shortens the list. *)
Theorem X7_smaller_cap_is_a_prefix
    (now : Z) (patient : Patient) (donors_df : list Donor)
    (n m : Z) (min_score : Q) (short long : list Match) :
  (0 <= n <= m)%Z →
  find_matches now patient donors_df n min_score = Ok short →
  find_matches now patient donors_df m min_score = Ok long →
  short = take (Z.to_nat n) long.
Proof.
  intros Hnm Hs Hl. apply find_matches_ok in Hs, Hl. subst short long.
  unfold slice_to.
  rewrite (proj2 (Z.leb_le 0 n)) by lia. rewrite (proj2 (Z.leb_le 0 m)) by lia.
  rewrite take_take. f_equal. lia.
Qed.

End RankerErrors.


(** X7 at a pool of three donors: the best match is the head of the best
    two. *)
Lemma X7_witness :
  ∃ short long,
    @find_matches example_geo (day 100) patient_a_pos
      [donor_diabetes "D1"; donor_o_neg NoDate; donor_diabetes "D2"] 1 50 = Ok short
    ∧ @find_matches example_geo (day 100) patient_a_pos
        [donor_diabetes "D1"; donor_o_neg NoDate; donor_diabetes "D2"] 2 50 = Ok long
    ∧ short = take 1 long
    ∧ m_donor_id <$> long = ["DON_000001"; "D1"]%string.
Proof.
  eexists _, _. split; [vm_compute; reflexivity |].
  split; [vm_compute; reflexivity |].
  split; [| reflexivity].
  apply (@X7_smaller_cap_is_a_prefix example_geo (day 100) patient_a_pos
           [donor_diabetes "D1"; donor_o_neg NoDate; donor_diabetes "D2"] 1 2 50);
    [lia | reflexivity | reflexivity].
Defined.


(** ** Batch matching *)

Section Batch.
Context `{G : Geo}.

Lemma batch_match_body_entry now donors_df cap all_matches patient :
  batch_match_body now donors_df cap all_matches patient
  = match batch_entry now donors_df cap patient with
    | Ok entry => Ok (<[patient_id patient := entry]> all_matches)
    | Raise e => Raise e
    end.
Proof.
  unfold batch_match_body, batch_entry.
  destruct (find_matches _ _ _ _ _); simpl; [| reflexivity].
  destruct (p_urgency_level _); simpl; [| reflexivity].
  destruct (p_location _); reflexivity.
Qed.

Lemma batch_entry_spec now donors_df cap patient entry :
  batch_entry now donors_df cap patient = Ok entry →
  find_matches now (patient_dict patient) donors_df cap 40.0 = Ok (matches entry)
  ∧ match_count entry = length (matches entry)
  ∧ info_name (patient_info entry) = patient_name patient
  ∧ info_blood_type_required (patient_info entry)
    = blood_type_required (patient_dict patient)
  ∧ p_urgency_level (patient_dict patient)
    = Some (info_urgency_level (patient_info entry))
  ∧ p_location (patient_dict patient) = Some (info_location (patient_info entry)).
Proof.
  unfold batch_entry.
  destruct (find_matches _ _ _ _ _); simpl; [| discriminate].
  destruct (p_urgency_level _); simpl; [| discriminate].
  destruct (p_location _); simpl; [| discriminate].
  intros [= <-]. simpl. auto 10.
Qed.

Lemma batch_match_loop_ok now donors_df cap patients acc all_matches :
  batch_match_loop now donors_df cap patients acc = Ok all_matches →
  (∀ pid, pid ∉ patient_id <$> patients → all_matches !! pid = acc !! pid)
  ∧ (∀ before patient after,
       patients = before ++ patient :: after →
       patient_id patient ∉ patient_id <$> after →
       ∃ entry, batch_entry now donors_df cap patient = Ok entry
                ∧ all_matches !! patient_id patient = Some entry).
Proof.
  revert acc. induction patients as [| p ps IH]; intros acc.
  - simpl. intros [= <-]. split; [reflexivity |].
    intros [| ? ?] ? ? Heq; discriminate Heq.
  - cbn [batch_match_loop]. rewrite batch_match_body_entry.
    destruct (batch_entry now donors_df cap p) as [entry | e] eqn:He; simpl;
      [| discriminate].
    intros Hloop. destruct (IH _ Hloop) as [Hout Hlast]. split.
    + intros pid Hpid. rewrite ?fmap_cons in Hpid.
      rewrite Hout by (intros Hin; apply Hpid; right; exact Hin).
      apply lookup_insert_ne. intros Heq. apply Hpid. rewrite Heq. left.
    + intros [| q before] patient after Heq Hfresh.
      * injection Heq as <- <-. exists entry. split; [exact He |].
        rewrite (Hout _ Hfresh). apply lookup_insert_eq.
      * injection Heq as <- ->. apply (Hlast before patient after eq_refl Hfresh).
Qed.


Lemma last_occurrence (patients : list PatientRow) (pid : string) :
  pid ∈ patient_id <$> patients →
  ∃ before patient after,
    patients = before ++ patient :: after
    ∧ patient_id patient = pid
    ∧ pid ∉ patient_id <$> after.
Proof.
  induction patients as [| p ps IH]; intros Hin.
  - apply elem_of_nil in Hin. contradiction.
  - destruct (decide (pid ∈ patient_id <$> ps)) as [Hps | Hps].
    + destruct (IH Hps) as (before & patient & after & -> & Hid & Hfresh).
      exists (p :: before), patient, after. auto.
    + rewrite fmap_cons in Hin. apply elem_of_cons in Hin as [-> | Hin];
        [| contradiction].
      exists [], p, ps. auto.
Qed.

(** X9.  When [batch_match_patients] returns, the dictionary has exactly
    the patient ids of the DataFrame as keys.  The value under an id holds
    the result of [find_matches] for a row with this id, run with the
    given cap and the threshold 40, and [match_count] is the length of
    that list; where several rows share an id, the last one is the row
    that counts. *)
Theorem X9_batch_entries
    (now : Z) (patients_df : list PatientRow) (donors_df : list Donor)
    (cap : Z) (all_matches : gmap string PatientMatches) :
  batch_match_patients now patients_df donors_df cap = Ok all_matches →
  (∀ pid, is_Some (all_matches !! pid) ↔ pid ∈ patient_id <$> patients_df)
  ∧ (∀ pid entry, all_matches !! pid = Some entry →
       match_count entry = length (matches entry)
       ∧ ∃ patient, patient ∈ patients_df ∧ patient_id patient = pid
           ∧ find_matches now (patient_dict patient) donors_df cap 40.0
             = Ok (matches entry)
           ∧ info_name (patient_info entry) = patient_name patient)
  ∧ (∀ before patient after,
       patients_df = before ++ patient :: after →
       patient_id patient ∉ patient_id <$> after →
       ∃ entry, all_matches !! patient_id patient = Some entry
         ∧ find_matches now (patient_dict patient) donors_df cap 40.0
           = Ok (matches entry)
         ∧ info_name (patient_info entry) = patient_name patient).
Proof.
  unfold batch_match_patients. intros Hloop.
  destruct (batch_match_loop_ok _ _ _ _ _ _ Hloop) as [Hout Hlast].
  assert (Hkey : ∀ pid, pid ∈ patient_id <$> patients_df →
            ∃ patient entry, patient ∈ patients_df ∧ patient_id patient = pid
              ∧ batch_entry now donors_df cap patient = Ok entry
              ∧ all_matches !! pid = Some entry).
  { intros pid Hin.
    destruct (last_occurrence patients_df pid Hin)
      as (before & patient & after & Heq & Hid & Hfresh).
    rewrite <- Hid in Hfresh.
    destruct (Hlast before patient after Heq Hfresh) as (entry & He & Hl).
    exists patient, entry. rewrite <- Hid.
    split; [| auto]. rewrite Heq. apply elem_of_app. right. left. }
  split; [| split].
  - intros pid. split.
    + intros Hsome. destruct (decide (pid ∈ patient_id <$> patients_df)) as [H | H];
        [exact H |].
      rewrite (Hout pid H), lookup_empty in Hsome. destruct Hsome as [? ?]. discriminate.
    + intros Hin. destruct (Hkey pid Hin) as (_ & entry & _ & _ & _ & Hl). eauto.
  - intros pid entry Hl.
    assert (Hin : pid ∈ patient_id <$> patients_df).
    { destruct (decide (pid ∈ patient_id <$> patients_df)) as [H | H]; [exact H |].
      rewrite (Hout pid H), lookup_empty in Hl. discriminate. }
    destruct (Hkey pid Hin) as (patient & entry' & Hp & Hid & He & Hl').
    assert (entry' = entry) by congruence. subst entry'.
    destruct (batch_entry_spec _ _ _ _ _ He) as (Hf & Hc & Hn & _).
    split; [exact Hc |]. exists patient. auto.
  - intros before patient after Heq Hfresh.
    destruct (Hlast before patient after Heq Hfresh) as (entry & He & Hl).
    destruct (batch_entry_spec _ _ _ _ _ He) as (Hf & _ & Hn & _).
    exists entry. auto.
Qed.



End Batch.

(** X9 at two rows with the same patient id: one key, one match. *)
Lemma X9_witness :
  ∃ all_matches,
    @batch_match_patients example_geo (day 100)
      [patient_row "PAT_000001"; patient_row "PAT_000001"]
      [donor_o_neg NoDate] default_max_matches_per_patient = Ok all_matches
    ∧ (is_Some (all_matches !! "PAT_000001"%string)
       ↔ "PAT_000001"%string
          ∈ patient_id <$> [patient_row "PAT_000001"; patient_row "PAT_000001"])
    ∧ size all_matches = 1%nat.
Proof.
  eexists. split; [vm_compute; reflexivity |]. split; [| reflexivity].
  apply (@X9_batch_entries example_geo (day 100)
           [patient_row "PAT_000001"; patient_row "PAT_000001"]
           [donor_o_neg NoDate] default_max_matches_per_patient).
  vm_compute. reflexivity.
Defined.


(** ** More on detection *)

(** X11.  One detection pass creates alerts only for rows that are urgent
    (HIGH or CRITICAL; a row without an urgency counts as MEDIUM) and not
    older than an hour, and each alert starts 'active', without matched
    donors and not notified.  Every urgent and recent row of the DataFrame
    has its request id in the active set after the pass, and the active
    set grows by the created alerts only. *)
Theorem X11_detection_filter (current_time : Z) (s : Service)
    (requests : list RequestRow) :
  let new_alerts := fst (detect_emergency_requests current_time s requests) in
  let active := active_alerts (snd (detect_emergency_requests current_time s requests)) in
  (∀ alert, alert ∈ new_alerts →
     ∃ request, request ∈ requests ∧ created_from current_time alert request)
  ∧ (∀ request, request ∈ requests →
       get (r_urgency_level request) "MEDIUM"%string ∈ ["HIGH"; "CRITICAL"]%string →
       total_seconds current_time (r_timestamp request) <= 3600 →
       is_Some (active !! r_request_id request))
  ∧ (∀ k, is_Some (active !! k) ↔
       is_Some (active_alerts s !! k) ∨ k ∈ request_id <$> new_alerts).
Proof.
  intros new_alerts active. subst new_alerts active.
  unfold detect_emergency_requests.
  pose proof (detect_fold_sound current_time requests [] (active_alerts s))
    as (H1 & H2 & H3 & H4).
  pose proof (detect_fold_inv (active_alerts s) current_time requests
                ([], active_alerts s)) as Hinv.
  destruct (foldl (detect_step current_time) ([], active_alerts s) requests)
    as [new active] eqn:Hf.
  cbn [fst snd active_alerts set_active_alerts] in *.
  split; [| split].
  - intros alert Ha. destruct (H1 alert Ha) as [Hnil | Hreq]; [| exact Hreq].
    apply elem_of_nil in Hnil. contradiction.
  - exact H4.
  - intros k. split; [apply H3 |]. intros [Hk | Hk]; [apply H2, Hk |].
    apply list_elem_of_fmap in Hk as (a & -> & Ha).
    destruct Hinv as (_ & _ & Hc & _).
    { unfold detect_inv. cbn [fst snd]. split; [auto |].
      split; [constructor |]. split; [| auto].
      intros a0 Ha0. apply elem_of_nil in Ha0. contradiction. }
    destruct (Hc a Ha) as [_ Hl]. cbn [snd] in Hl. rewrite Hl. eauto.
Qed.

(** X11 at a pass of three rows: the urgent one is in the active set. *)
Lemma X11_witness :
  let requests :=
    [ request_row_urgency "REQ_1" (day 100) (Some "LOW"%string);
      request_row_urgency "REQ_2" (day 100) None;
      request_row_urgency "REQ_3" (day 100) (Some "CRITICAL"%string) ] in
  is_Some (active_alerts
             (snd (detect_emergency_requests (day 100) (new_service None) requests))
           !! "REQ_3"%string)
  ∧ request_id
      <$> fst (detect_emergency_requests (day 100) (new_service None) requests)
    = ["REQ_3"%string].
Proof.
  intros requests. split; [| reflexivity].
  apply (proj1 (proj2 (X11_detection_filter (day 100) (new_service None) requests))
           (request_row_urgency "REQ_3" (day 100) (Some "CRITICAL"%string))).
  - right. right. left.
  - right. left.
  - vm_compute. discriminate.
Defined.

Lemma detect_fold_ids current_time requests new active (n0 : nat) :
  alert_id <$> new = seq (n0 + 1) (length new) →
  size active = (n0 + length new)%nat →
  let st := foldl (detect_step current_time) (new, active) requests in
  alert_id <$> fst st = seq (n0 + 1) (length (fst st))
  ∧ size (snd st) = (n0 + length (fst st))%nat.
Proof.
  revert new active. induction requests as [| r rs IH]; intros new active Hids Hsize st.
  - subst st. simpl. auto.
  - subst st. cbn [foldl].
    destruct (detect_step_cases current_time new active r)
      as [[-> _] | (alert & -> & Hfresh & Hid & _)].
    + apply IH; assumption.
    + apply IH.
      * rewrite fmap_app, length_app, seq_app, Hids. simpl.
        rewrite Hid, Hsize. do 2 f_equal. lia.
      * rewrite map_size_insert_None by exact Hfresh.
        rewrite length_app. simpl. lia.
Qed.

Lemma detect_passes_ids (n0 : nat) passes (acc : list EmergencyAlert * Service) :
  alert_id <$> fst acc = seq (n0 + 1) (length (fst acc)) →
  size (active_alerts (snd acc)) = (n0 + length (fst acc))%nat →
  let res :=
    foldl (λ acc pass,
             let '(new_alerts, s') :=
               detect_emergency_requests (fst pass) (snd acc) (snd pass) in
             (fst acc ++ new_alerts, s')) acc passes in
  alert_id <$> fst res = seq (n0 + 1) (length (fst res))
  ∧ size (active_alerts (snd res)) = (n0 + length (fst res))%nat.
Proof.
  revert acc. induction passes as [| [t df] ps IH]; intros acc Hids Hsize res.
  - subst res. simpl. auto.
  - subst res. cbn [foldl]. apply IH; cbn [fst snd].
    + unfold detect_emergency_requests.
      pose proof (detect_fold_acc t df (fst acc) [] (active_alerts (snd acc))) as Hacc.
      rewrite app_nil_r in Hacc.
      pose proof (detect_fold_ids t df (fst acc) (active_alerts (snd acc)) n0
                    Hids Hsize) as [H1 _].
      rewrite Hacc in H1.
      destruct (foldl (detect_step t) ([], active_alerts (snd acc)) df) as [new active].
      exact H1.
    + unfold detect_emergency_requests.
      pose proof (detect_fold_acc t df (fst acc) [] (active_alerts (snd acc))) as Hacc.
      rewrite app_nil_r in Hacc.
      pose proof (detect_fold_ids t df (fst acc) (active_alerts (snd acc)) n0
                    Hids Hsize) as [_ H2].
      rewrite Hacc in H2.
      destruct (foldl (detect_step t) ([], active_alerts (snd acc)) df) as [new active].
      exact H2.
Qed.

(** X12.  Over any sequence of detection passes the alerts created get the
    numbers n+1, n+2, ... in the order of their creation, where n is the
    size of the active set at the start, and the active set grows by one
    with each alert: as long as no alert is removed, no two alerts share
    an alert id. *)
Theorem X12_alert_ids_are_consecutive (s : Service)
    (passes : list (Z * list RequestRow)) :
  let created := fst (detect_passes s passes) in
  alert_id <$> created = seq (size (active_alerts s) + 1) (length created)
  ∧ size (active_alerts (snd (detect_passes s passes)))
    = (size (active_alerts s) + length created)%nat
  ∧ NoDup (alert_id <$> created).
Proof.
  intros created. subst created. unfold detect_passes.
  destruct (detect_passes_ids (size (active_alerts s)) passes ([], s))
    as [Hids Hsize]; [reflexivity | simpl; lia |].
  split; [exact Hids |]. split; [exact Hsize |].
  rewrite Hids. apply NoDup_seq.
Qed.

(** After a cleanup the numbering starts again from the size of the active
    set: an alert created then can get the number of an alert that is
    still active.  Here "REQ_1" is detected, "REQ_2" 23 hours later, and
    after "REQ_1" has expired "REQ_3" gets the number 2 of "REQ_2". *)
Example alert_id_reused_after_cleanup :
  let hour := (3600 * ns_per_second)%Z in
  let s1 := snd (detect_emergency_requests (day 100) (new_service None)
                   [request_row "REQ_1" (day 100) 19.0]) in
  let s2 := snd (detect_emergency_requests (day 100 + 23 * hour) s1
                   [request_row "REQ_2" (day 100 + 23 * hour) 19.0]) in
  let s3 := _cleanup_expired_alerts (day 101 + hour) s2 in
  let s4 := snd (detect_emergency_requests (day 101 + hour) s3
                   [request_row "REQ_3" (day 101 + hour) 19.0]) in
  alert_id <$> active_alerts s4 !! "REQ_1"%string = None
  ∧ alert_id <$> active_alerts s4 !! "REQ_2"%string = Some 2%nat
  ∧ alert_id <$> active_alerts s4 !! "REQ_3"%string = Some 2%nat.
Proof. repeat split. Qed.

(** ** More on the processing pass *)

Lemma outcome_fields matching alert :
  request_id (outcome matching alert) = request_id alert
  ∧ timestamp (outcome matching alert) = timestamp alert
  ∧ alert_id (outcome matching alert) = alert_id alert.
Proof. destruct matching as [[| m l] | e]; repeat split. Qed.

Lemma detect_fold_unchanged current_time requests new active :
  let st := foldl (detect_step current_time) (new, active) requests in
  (length new <= length (fst st))%nat
  ∧ (length (fst st) = length new → st = (new, active)).
Proof.
  revert new active. induction requests as [| r rs IH]; intros new active st.
  - subst st. simpl. auto.
  - subst st. cbn [foldl].
    destruct (detect_step_cases current_time new active r)
      as [[-> _] | (alert & -> & _)].
    + apply IH.
    + destruct (IH (new ++ [alert]) (<[r_request_id r := alert]> active)) as [Hle _].
      rewrite length_app in Hle. simpl in Hle. split; lia.
Qed.

Lemma set_active_alerts_same (s : Service) : set_active_alerts s (active_alerts s) = s.
Proof. destruct s. reflexivity. Qed.

Section ProcessingMore.
Context `{G : Geo}.

Lemma process_alert_keyed donors_df s alert :
  keyed (active_alerts s) → keyed (active_alerts (process_alert donors_df s alert)).
Proof.
  intros Hk k a. rewrite process_alert_lookup.
  destruct (decide _); [| apply Hk].
  destruct (active_alerts s !! k) as [a0 |] eqn:E; simpl; [| discriminate].
  intros [= <-].
  destruct (outcome_fields (find_matching_donors_for_alert s alert donors_df) a0)
    as [-> _].
  apply (Hk _ _ E).
Qed.

Lemma process_loop_keyed donors_df alerts s :
  keyed (active_alerts s) →
  keyed (active_alerts (foldl (process_alert donors_df) s alerts)).
Proof.
  revert s. induction alerts as [| a alerts IH]; intros s Hk; [exact Hk |].
  cbn [foldl]. apply IH, process_alert_keyed, Hk.
Qed.

Lemma cleanup_keyed current_time s :
  keyed (active_alerts s) →
  keyed (active_alerts (_cleanup_expired_alerts current_time s)).
Proof.
  intros Hk k a. rewrite cleanup_lookup.
  destruct (active_alerts s !! k) as [a0 |] eqn:E; [| discriminate].
  destruct (is_expired _ _ _); [discriminate |].
  intros [= <-]. apply (Hk _ _ E).
Qed.

(** X13.  A whole processing pass (detection, matching and dispatch,
    cleanup) keeps every alert of the active set under its own request id:
    two entries of the active set never share a request id, whatever the
    outcome of the matching. *)
Theorem X13_processing_keeps_one_alert_per_request
    (detect_time cleanup_time : Z) (s : Service)
    (requests : list RequestRow) (donors_df : list Donor) :
  keyed (active_alerts s) →
  let s' := process_emergency_requests detect_time cleanup_time s requests donors_df in
  keyed (active_alerts s')
  ∧ ∀ k1 k2 a1 a2,
      active_alerts s' !! k1 = Some a1 → active_alerts s' !! k2 = Some a2 →
      request_id a1 = request_id a2 → k1 = k2 ∧ a1 = a2.
Proof.
  intros Hk s'.
  assert (Hkeyed : keyed (active_alerts s')).
  { subst s'. unfold process_emergency_requests.
    pose proof (detect_emergency_requests_inv detect_time s requests) as (Hk1 & _).
    destruct (detect_emergency_requests detect_time s requests) as [new s1].
    cbn [fst snd] in Hk1. specialize (Hk1 Hk).
    destruct new as [| a new]; [exact Hk1 |].
    apply cleanup_keyed, process_loop_keyed, Hk1. }
  split; [exact Hkeyed |].
  intros k1 k2 a1 a2 H1 H2 Heq.
  pose proof (Hkeyed _ _ H1) as E1. pose proof (Hkeyed _ _ H2) as E2.
  assert (Hkk : k1 = k2) by congruence. split; [exact Hkk |].
  rewrite Hkk in H1. congruence.
Qed.

(** X14.  When a pass detects no new alert it returns at once: the service
    is left exactly as it was.  In particular the cleanup is not run, and
    an alert older than the TTL stays in the active set until a pass that
    detects something. *)
Theorem X14_pass_without_new_alerts_changes_nothing
    (detect_time cleanup_time : Z) (s : Service)
    (requests : list RequestRow) (donors_df : list Donor) :
  fst (detect_emergency_requests detect_time s requests) = [] →
  process_emergency_requests detect_time cleanup_time s requests donors_df = s.
Proof.
  unfold process_emergency_requests, detect_emergency_requests.
  pose proof (detect_fold_unchanged detect_time requests [] (active_alerts s))
    as [_ Hsame].
  destruct (foldl (detect_step detect_time) ([], active_alerts s) requests)
    as [new active] eqn:Hf.
  cbn [fst snd] in *. intros ->.
  specialize (Hsame eq_refl). injection Hsame as ->.
  apply set_active_alerts_same.
Qed.

(** X15.  After a processing pass, the alert stored for a newly detected
    request is, unless the cleanup removed it as expired: the alert as
    created when no donor matched; the alert with [notification_sent] and
    [matched_donors] set when donors matched; the alert with status
    'error' when an exception was raised.  An alert that was in the active
    set before the pass is untouched, unless it expired. *)
Theorem X15_stored_alert_after_a_pass
    (detect_time cleanup_time : Z) (s : Service)
    (requests : list RequestRow) (donors_df : list Donor) :
  let new_alerts := fst (detect_emergency_requests detect_time s requests) in
  let s' := process_emergency_requests detect_time cleanup_time s requests donors_df in
  new_alerts ≠ [] →
  (∀ alert, alert ∈ new_alerts →
     active_alerts s' !! request_id alert
     = if is_expired (config s) cleanup_time alert then None
       else Some (outcome (find_matching_donors_for_alert s alert donors_df) alert))
  ∧ (∀ k alert, active_alerts s !! k = Some alert →
       active_alerts s' !! k
       = if is_expired (config s) cleanup_time alert then None else Some alert).
Proof.
  intros new_alerts s'. subst new_alerts s'.
  unfold process_emergency_requests.
  pose proof (detect_emergency_requests_config detect_time s requests) as (Hc & Hm & _).
  pose proof (detect_emergency_requests_inv detect_time s requests)
    as (_ & Hnd & Hst & Hold).
  destruct (detect_emergency_requests detect_time s requests) as [new s1].
  cbn [fst snd] in *. intros Hne.
  destruct (process_loop donors_df new s1 Hnd) as (Hc2 & _ & _ & Hl2 & Ho2).
  destruct new as [| a0 new0] eqn:Hnew; [contradiction |]. rewrite <- Hnew in *.
  split.
  - intros alert Hin. rewrite cleanup_lookup, (Hl2 alert Hin).
    destruct (Hst alert Hin) as [_ ->]. simpl.
    rewrite Hc2, Hc.
    rewrite (find_matching_donors_ext s1 s alert donors_df Hc Hm).
    unfold is_expired.
    destruct (outcome_fields (find_matching_donors_for_alert s alert donors_df) alert)
      as (_ & -> & _).
    reflexivity.
  - intros k alert Hk. rewrite cleanup_lookup, Ho2.
    + rewrite (Hold k alert Hk), Hc2, Hc. reflexivity.
    + intros Hin. apply list_elem_of_fmap in Hin as (a & -> & Ha).
      destruct (Hst a Ha) as [Hnone _]. congruence.
Qed.
End ProcessingMore.

(** X13 at a pass over a new service. *)
Lemma X13_witness :
  keyed (active_alerts
           (@process_emergency_requests example_geo (day 100) (day 100)
              (new_service None)
              [request_row "REQ_1" (day 100) 19.0; request_row "REQ_2" (day 100) 19.0]
              [donor_a_pos 19.0])).
Proof.
  apply (@X13_processing_keeps_one_alert_per_request example_geo (day 100) (day 100)
           (new_service None)
           [request_row "REQ_1" (day 100) 19.0; request_row "REQ_2" (day 100) 19.0]
           [donor_a_pos 19.0]).
  intros k a Hk. simpl in Hk. rewrite lookup_empty in Hk. discriminate.
Defined.

(** X14 at a service that holds an alert created two days before: a pass
    whose only request is a day old detects nothing, and the old alert is
    still there. *)
Lemma X14_witness :
  let s := set_active_alerts (new_service None)
             (<["REQ_OLD"%string := example_alert "REQ_OLD" (day 98)]> ∅) in
  let s' :=
    @process_emergency_requests example_geo (day 100) (day 100) s
      [request_row "REQ_1" (day 99) 19.0] [donor_a_pos 19.0] in
  s' = s ∧ is_Some (active_alerts s' !! "REQ_OLD"%string).
Proof.
  intros s s'.
  assert (E : s' = s).
  { apply (@X14_pass_without_new_alerts_changes_nothing example_geo). reflexivity. }
  split; [exact E |]. rewrite E. eexists. reflexivity.
Defined.

(** X15 at a pass with a request for which no donor matches: the alert is
    stored as created. *)
Lemma X15_witness :
  active_alerts
    (@process_emergency_requests example_geo (day 100) (day 100) (new_service None)
       [request_row "REQ_1" (day 100) 19.0] [donor_o_neg NoDate])
    !! "REQ_1"%string
  = Some (example_alert "REQ_1" (day 100)).
Proof.
  destruct (@X15_stored_alert_after_a_pass example_geo (day 100) (day 100)
              (new_service None) [request_row "REQ_1" (day 100) 19.0]
              [donor_o_neg NoDate]) as [Hnew _]; [discriminate |].
  exact (Hnew (example_alert "REQ_1" (day 100)) ltac:(left)).
Defined.

(** ** The built-in channels *)

Lemma builtin_channel cfg channel sink :
  notification_channels (new_service cfg) !! channel = Some sink →
  channel ∈ ["email"; "sms"; "whatsapp"; "push"]%string
  ∧ ∀ message alert matched, sink message alert matched = Raise TypeError.
Proof.
  intros H. apply elem_of_list_to_map_2 in H.
  repeat (apply elem_of_cons in H as [H | H];
          [injection H as -> ->; split; [repeat first [left | right] | reflexivity] |]).
  apply elem_of_nil in H. contradiction.
Qed.

(** X16.  On a service as constructed, whatever its configuration, every
    channel task ends in the [except] branch: the four built-in channel
    methods are plain functions that return [True], and awaiting their
    result raises [TypeError].  The log holds one error line per configured
    channel among email, sms, whatsapp and push, other names are skipped,
    and the alert is marked as notified all the same. *)
Theorem X16_builtin_channels_always_log_an_error
    (cfg : option Config) (alert : EmergencyAlert) (matched : list MatchedDonor) :
  matched ≠ [] →
  let s := new_service cfg in
  snd (send_emergency_notifications s alert matched)
  = (λ channel, NotificationError channel TypeError)
      <$> filter (λ channel, channel ∈ ["email"; "sms"; "whatsapp"; "push"]%string)
                 (cfg_notification_channels (config s))
  ∧ notification_sent (fst (send_emergency_notifications s alert matched)) = true.
Proof.
  intros Hne s. subst s. destruct matched as [| m matched]; [contradiction |].
  cbn [send_emergency_notifications fst snd]. split; [| reflexivity].
  generalize (generate_alert_message alert (m :: matched)). intros message.
  induction (cfg_notification_channels (config (new_service cfg))) as [| c cs IH];
    [reflexivity |].
  rewrite !filter_cons.
  destruct (decide (is_Some (notification_channels (new_service cfg) !! c)))
    as [[sink Hs] | Hno].
  - destruct (builtin_channel cfg c sink Hs) as [Hin Hraise].
    rewrite decide_True by exact Hin. rewrite !fmap_cons, IH. f_equal.
    unfold _send_notification_async, Sink in *.
    rewrite Hs. simpl. rewrite Hraise. reflexivity.
  - rewrite decide_False; [exact IH |].
    intros Hin. apply Hno.
    repeat (apply elem_of_cons in Hin as [-> | Hin]; [eexists; reflexivity |]).
    apply elem_of_nil in Hin. contradiction.
Qed.

(** X16 at the default configuration, whose channels are email and sms. *)
Lemma X16_witness :
  snd (send_emergency_notifications (new_service None)
         (example_alert "REQ_1" (day 100)) [FromSimple simple_match_a_pos])
  = [NotificationError "email" TypeError; NotificationError "sms" TypeError].
Proof.
  apply (X16_builtin_channels_always_log_an_error None
           (example_alert "REQ_1" (day 100)) [FromSimple simple_match_a_pos]).
  discriminate.
Defined.

(** ** Cleanup, again *)

Lemma is_expired_later cfg t1 t2 alert :
  (t1 <= t2)%Z → is_expired cfg t1 alert = true → is_expired cfg t2 alert = true.
Proof.
  unfold is_expired. intros Ht H. apply Qltb_lt in H. apply Qltb_lt.
  eapply Qlt_le_trans; [exact H |].
  unfold total_seconds, Qle. simpl. nia.
Qed.

(** X17.  Cleaning up twice is cleaning up once at the later time: for
    [t1 <= t2], a cleanup at [t2] after a cleanup at [t1] leaves the
    service that a single cleanup at [t2] leaves.  In particular a cleanup
    repeated at the same time changes nothing more. *)
Theorem X17_cleanup_composes (t1 t2 : Z) (s : Service) :
  (t1 <= t2)%Z →
  _cleanup_expired_alerts t2 (_cleanup_expired_alerts t1 s)
  = _cleanup_expired_alerts t2 s.
Proof.
  intros Ht.
  assert (Hmap : active_alerts (_cleanup_expired_alerts t2 (_cleanup_expired_alerts t1 s))
                 = active_alerts (_cleanup_expired_alerts t2 s)).
  { apply map_eq. intros k. rewrite !cleanup_lookup.
    change (config (_cleanup_expired_alerts t1 s)) with (config s).
    destruct (active_alerts s !! k) as [a |]; [| reflexivity].
    destruct (is_expired (config s) t1 a) eqn:E1.
    - rewrite (is_expired_later _ _ _ _ Ht E1). reflexivity.
    - reflexivity. }
  transitivity
    (set_active_alerts (_cleanup_expired_alerts t1 s)
       (active_alerts (_cleanup_expired_alerts t2 (_cleanup_expired_alerts t1 s))));
    [reflexivity |].
  rewrite Hmap. reflexivity.
Qed.

Lemma X17_witness :
  let s := set_active_alerts (new_service None)
             (<["REQ_OLD"%string := example_alert "REQ_OLD" (day 98)]> ∅) in
  _cleanup_expired_alerts (day 100) (_cleanup_expired_alerts (day 99) s)
  = _cleanup_expired_alerts (day 100) s.
Proof.
  intros s. apply (X17_cleanup_composes (day 99) (day 100) s). vm_compute. discriminate.
Defined.

(** ** The attached matching system *)

Section AttachedMatcher.
Context `{G : Geo}.

Lemma find_emergency_matches_views now request donors_df cap r :
  find_emergency_matches now request donors_df cap = Ok r →
  ∃ ms, find_matches now (emergency_patient request) donors_df cap 30.0 = Ok ms
    ∧ immediate_contact r
      = slice_to (filter (λ m, is_critical_match m = true) ms) 3
    ∧ high_priority r
      = slice_to (filter (λ m, is_high_priority_match m = true) ms) 5.
Proof.
  unfold find_emergency_matches.
  destruct (find_matches _ _ _ _ _) as [ms | e]; simpl; [| discriminate].
  intros [= <-]. exists ms. auto.
Qed.

Lemma accepted_compatible now patient min_score d m :
  0 < min_score →
  accepted now patient min_score d = Some m →
  check_blood_compatibility (blood_type_required patient) (blood_type d) = true.
Proof.
  intros Hpos Hacc.
  destruct (accepted_spec _ _ _ _ _ Hacc) as (_ & Hscore & _).
  rewrite calculate_matching_score_unfold in Hscore.
  destruct (check_blood_compatibility _ _); [reflexivity |].
  simpl in Hscore. lra.
Qed.

Lemma slice_to_filter_elem {A : Type} (p : A → bool) (l : list A) (n : Z) (x : A) :
  x ∈ slice_to (filter (λ y, p y = true) l) n → x ∈ l ∧ p x = true.
Proof.
  intros Hx. destruct (slice_to_prefix (filter (λ y, p y = true) l) n) as [k Hk].
  assert (Hin : x ∈ filter (λ y, p y = true) l).
  { rewrite Hk. apply elem_of_app. left. exact Hx. }
  apply list_elem_of_filter in Hin. tauto.
Qed.

(** X18.  With a [PatientDonorMatching] object attached, the donors matched
    for an alert are the [immediate_contact] view followed by the
    [high_priority] view of [find_emergency_matches]: at most 8 entries,
    at most 5 unless the alert is CRITICAL, each from a donor whose blood
    type is compatible with the requested one (not necessarily equal) and
    with a stored distance of at most 50 km.  When the matching system
    raises, the exception is swallowed and the result is that of the
    service without a matching system. *)
Theorem X18_attached_matching_system
    (now : Z) (s : Service) (alert : EmergencyAlert) (donors_df : list Donor) :
  matching_system s = Some (patient_donor_matching now) →
  let request :=
    {| blood_type_needed := a_blood_type_needed alert;
       urgency_level := a_urgency_level alert;
       e_latitude := Some (a_latitude alert);
       e_longitude := Some (a_longitude alert);
       e_location := a_location alert |} in
  (∀ r, find_emergency_matches now request donors_df default_emergency_max_matches
        = Ok r →
     find_matching_donors_for_alert s alert donors_df
     = Ok (FromMatching <$> (immediate_contact r ++ high_priority r))
     ∧ (length (immediate_contact r ++ high_priority r) <= 8)%nat
     ∧ (a_urgency_level alert ≠ "CRITICAL"%string →
        immediate_contact r = [] ∧ (length (high_priority r) <= 5)%nat)
     ∧ ∀ m, m ∈ immediate_contact r ++ high_priority r →
         m_distance_km m <= 50
         ∧ ∃ d, d ∈ donors_df ∧ m_donor_id m = donor_id d
             ∧ check_blood_compatibility (a_blood_type_needed alert) (blood_type d)
               = true)
  ∧ (∀ e, find_emergency_matches now request donors_df default_emergency_max_matches
          = Raise e →
     find_matching_donors_for_alert s alert donors_df
     = find_matching_donors_for_alert (set_matching_system s None) alert donors_df).
Proof.
  intros Hsys request. split.
  - intros r Hr.
    destruct (find_emergency_matches_views _ _ _ _ _ Hr) as (ms & Hms & Himm & Hhigh).
    assert (Hlen3 : (length (immediate_contact r) <= 3)%nat).
    { rewrite Himm. pose proof (slice_to_length
        (filter (λ m, is_critical_match m = true) ms) 3 ltac:(lia)). lia. }
    assert (Hlen5 : (length (high_priority r) <= 5)%nat).
    { rewrite Hhigh. pose proof (slice_to_length
        (filter (λ m, is_high_priority_match m = true) ms) 5 ltac:(lia)). lia. }
    split; [| split; [| split]].
    + unfold find_matching_donors_for_alert. rewrite Hsys.
      unfold patient_donor_matching. fold request. rewrite Hr. reflexivity.
    + rewrite length_app. lia.
    + intros Hne. split; [| exact Hlen5].
      destruct (immediate_contact r) as [| m l] eqn:E; [reflexivity |].
      assert (Hm : m ∈ slice_to (filter (λ m, is_critical_match m = true) ms) 3)
        by (rewrite <- Himm; left).
      apply slice_to_filter_elem in Hm as [Hm Hc].
      unfold is_critical_match in Hc.
      rewrite (find_matches_urgency _ _ _ _ _ _ _ Hms Hm) in Hc. simpl in Hc.
      rewrite bool_decide_eq_false_2 in Hc by exact Hne. discriminate.
    + intros m Hm.
      assert (Hin : m ∈ ms ∧ m_distance_km m <= 50).
      { apply elem_of_app in Hm as [Hm | Hm].
        - rewrite Himm in Hm. apply slice_to_filter_elem in Hm as [Hm Hc].
          split; [exact Hm |]. unfold is_critical_match in Hc.
          apply andb_prop in Hc as [_ Hc]. apply Qle_bool_iff in Hc. lra.
        - rewrite Hhigh in Hm. apply slice_to_filter_elem in Hm as [Hm Hc].
          split; [exact Hm |]. unfold is_high_priority_match in Hc.
          apply andb_prop in Hc as [_ Hc]. apply Qle_bool_iff in Hc. exact Hc. }
      destruct Hin as [Hin Hkm]. split; [exact Hkm |].
      destruct (find_matches_elem _ _ _ _ _ _ _ Hms Hin) as (d & Hd & _ & Hacc).
      exists d. split; [exact Hd |].
      destruct (accepted_spec _ _ _ _ _ Hacc) as (_ & _ & _ & _ & Hid & _).
      split; [exact Hid |].
      apply (accepted_compatible now (emergency_patient request) 30.0 d m);
        [reflexivity | exact Hacc].
  - intros e He. unfold find_matching_donors_for_alert. rewrite Hsys.
    unfold patient_donor_matching. fold request. rewrite He. reflexivity.
Qed.
End AttachedMatcher.

(** X18 at an A+ alert and an O- donor: the attached matching system
    returns the donor, the simple matcher does not. *)
Lemma X18_witness :
  let s := set_matching_system (new_service None)
             (Some (@patient_donor_matching example_geo (day 100))) in
  let alert := example_alert "REQ_1" (day 100) in
  (∃ matched,
     @find_matching_donors_for_alert example_geo s alert [donor_o_neg NoDate]
     = Ok matched ∧ length matched = 1%nat)
  ∧ @find_matching_donors_for_alert example_geo (new_service None) alert
      [donor_o_neg NoDate] = Ok [].
Proof.
  intros s alert. split; [| reflexivity].
  destruct (@find_emergency_matches example_geo (day 100)
              {| blood_type_needed := a_blood_type_needed alert;
                 urgency_level := a_urgency_level alert;
                 e_latitude := Some (a_latitude alert);
                 e_longitude := Some (a_longitude alert);
                 e_location := a_location alert |}
              [donor_o_neg NoDate] default_emergency_max_matches) as [r | e] eqn:Hr;
    [| vm_compute in Hr; discriminate].
  destruct (proj1 (@X18_attached_matching_system example_geo (day 100) s alert
                     [donor_o_neg NoDate] eq_refl) r Hr) as (Hfind & _).
  eexists. split; [exact Hfind |].
  vm_compute in Hr. injection Hr as <-. reflexivity.
Defined.

(** ** Statistics *)

Lemma urgency_counts_spec (active : gmap string EmergencyAlert) :
  let counts := map_fold (λ _ alert counts, count_urgency alert counts) ∅ active in
  (∀ u, default 0%nat (counts !! u)
        = size (filter (λ kv, a_urgency_level (snd kv) = u) active))
  ∧ (∀ u n, counts !! u = Some n → (0 < n)%nat).
Proof.
  apply (map_fold_weak_ind
           (λ counts active,
              (∀ u, default 0%nat (counts !! u)
                    = size (filter (λ kv, a_urgency_level (snd kv) = u) active))
              ∧ (∀ u n, counts !! u = Some n → (0 < n)%nat))).
  - split.
    + intros u. rewrite lookup_empty, map_filter_empty, map_size_empty. reflexivity.
    + intros u n H. rewrite lookup_empty in H. discriminate.
  - intros i x m r Hi [Hcount Hpos]. unfold count_urgency. split.
    + intros u. rewrite lookup_insert.
      destruct (decide (a_urgency_level x = u)) as [<- | Hne].
      * simpl. rewrite Hcount.
        rewrite map_filter_insert_True by reflexivity.
        rewrite map_size_insert_None; [lia |].
        apply map_lookup_filter_None. left. exact Hi.
      * rewrite map_filter_insert_not'; [apply Hcount | exact Hne |].
        intros y Hy. congruence.
    + intros u n. rewrite lookup_insert.
      destruct (decide _); [intros [= <-]; lia | apply Hpos].
Qed.

(** X19.  In the statistics, [urgency_distribution] holds under each
    urgency level the number of active alerts of this level, and only
    levels that occur; [recent_alerts_count] never exceeds
    [total_alerts_processed], the length of the history; [last_processed]
    is the timestamp of the last history entry, [None] exactly when the
    history is empty. *)
Theorem X19_statistics_count_the_alerts (current_time : Z) (s : Service) :
  let stats := get_alert_statistics current_time s in
  (∀ u, default 0%nat (urgency_distribution stats !! u)
        = size (filter (λ kv, a_urgency_level (snd kv) = u) (active_alerts s)))
  ∧ (∀ u, is_Some (urgency_distribution stats !! u)
          ↔ ∃ k alert, active_alerts s !! k = Some alert ∧ a_urgency_level alert = u)
  ∧ (recent_alerts_count stats <= total_alerts_processed stats)%nat
  ∧ total_alerts_processed stats = length (alert_history s)
  ∧ (last_processed stats = None ↔ alert_history s = [])
  ∧ (∀ history entry, alert_history s = history ++ [entry] →
       last_processed stats = Some (h_timestamp entry)).
Proof.
  intros stats. subst stats. unfold get_alert_statistics.
  cbn [urgency_distribution recent_alerts_count total_alerts_processed last_processed].
  destruct (urgency_counts_spec (active_alerts s)) as [Hcount Hpos].
  split; [exact Hcount |]. split; [| split; [| split; [| split]]].
  - intros u. split.
    + intros [n Hn]. pose proof (Hcount u) as Hu. rewrite Hn in Hu. simpl in Hu.
      pose proof (Hpos u n Hn) as Hp.
      destruct (map_size_ne_0_lookup_1
                  (filter (λ kv, a_urgency_level (snd kv) = u) (active_alerts s)))
        as [k [a Ha]]; [lia |].
      apply map_lookup_filter_Some in Ha as [Ha Hu']. eauto.
    + intros (k & alert & Hk & Hu).
      destruct (map_fold _ _ _ !! u) as [n |] eqn:E; [eauto |].
      pose proof (Hcount u) as Hc. rewrite E in Hc. simpl in Hc.
      symmetry in Hc. apply map_size_empty_inv in Hc.
      assert (Hin : filter (λ kv, a_urgency_level (snd kv) = u) (active_alerts s) !! k
                    = Some alert)
        by (apply map_lookup_filter_Some; auto).
      rewrite Hc, lookup_empty in Hin. discriminate.
  - apply length_filter.
  - reflexivity.
  - destruct (alert_history s) as [| h l] using rev_ind; [split; reflexivity |].
    rewrite last_snoc. simpl. split; [discriminate |].
    intros H. destruct l; discriminate.
  - intros history entry ->. rewrite last_snoc. reflexivity.
Qed.

(** X19 at a service with two HIGH alerts, one of them in status 'error'. *)
Lemma X19_witness :
  let s := set_active_alerts (new_service None)
             (<["REQ_1"%string := example_alert "REQ_1" (day 100)]>
                (<["REQ_2"%string :=
                      set_status (example_alert "REQ_2" (day 100)) "error"]> ∅)) in
  is_Some (urgency_distribution (get_alert_statistics (day 100) s) !! "HIGH"%string)
  ∧ urgency_distribution (get_alert_statistics (day 100) s) !! "HIGH"%string
    = Some 2%nat.
Proof.
  intros s. split; [| reflexivity].
  apply (proj1 (proj2 (X19_statistics_count_the_alerts (day 100) s))).
  exists "REQ_1"%string, (example_alert "REQ_1" (day 100)). split; reflexivity.
Defined.

(** ** When the simple matcher returns *)

Section SimpleMatcherMore.
Context `{G : Geo}.





(** X21.  The two distance functions agree whenever the one of the service
    returns; where it raises, on an exception of [geodesic] other than
    [ImportError], the one of the matching module falls back to the planar
    approximation instead: it never raises. *)
Theorem X21_distance_functions (lat1 lon1 lat2 lon2 : Q) :
  (∀ km, _calculate_distance lat1 lon1 lat2 lon2 = Ok km →
     calculate_distance lat1 lon1 lat2 lon2 = km)
  ∧ (∀ e, _calculate_distance lat1 lon1 lat2 lon2 = Raise e →
       e ≠ ImportError
       ∧ geodesic lat1 lon1 lat2 lon2 = Raise e
       ∧ calculate_distance lat1 lon1 lat2 lon2 = planar lat1 lon1 lat2 lon2).
Proof.
  unfold _calculate_distance, calculate_distance.
  destruct (geodesic lat1 lon1 lat2 lon2) as [km | e].
  - split; [intros km' [= <-]; reflexivity | discriminate].
  - destruct e; (split; [intros km' H | intros e' H]);
      try discriminate H;
      injection H as <-;
      first [reflexivity | split; [discriminate | split; reflexivity]].
Qed.
End SimpleMatcherMore.


(** X21 at a latitude of 95 degrees. *)
Lemma X21_witness :
  @calculate_distance example_geo 19 72 95 72 = 8436
  ∧ @_calculate_distance example_geo 19 72 95 72 = Raise ValueError.
Proof.
  split; [| reflexivity].
  destruct (@X21_distance_functions example_geo 19 72 95 72) as [_ H].
  destruct (H ValueError eq_refl) as (_ & _ & ->). reflexivity.
Defined.
